(** * Interactive-judge tester template ([contest_template/cpp/tester.cpp])

    A shallow embedding of the [JudgeInterface] class and of the bundled
    number-guessing [main], followed by the properties the specification
    states about them.

    Modelling conventions.
    - [int] is a 32-bit two's complement integer, carried as a [Z]; the one
      arithmetic operation of the program ([query_count++]) is written with
      its wrap-around, and shown never to wrap on the path that executes it.
    - [std::string] is [string] (a sequence of bytes); the Japanese literals
      of the source are the same UTF-8 bytes here.
    - [cin] is the text still to be read together with the stream's [eofbit]
      and [failbit]; [cout] and [cerr] are the bytes written so far (both are
      flushed by [endl] at every write of the program).
    - [exit] and C++ exceptions are outcomes of a small state monad:
      a computation returns, terminates the process, or throws.
    - [std::getline], [strtol] and [std::stoi] are library code; they are
      written out here after the C and C++ standards, for the "C" locale,
      a line feed as line terminator and a 64-bit [long].
    - The solution under test is taken to close its output sooner or later,
      so [cin] holds finitely many bytes and a read never blocks for ever;
      writes to [cout] and [cerr] always succeed. *)

From Stdlib Require Import String Ascii ZArith Lia List Bool.
Import ListNotations.

Local Open Scope string_scope.
Local Open Scope Z_scope.

(** ** Machine integers *)

Module CInt.

Definition INT_MIN : Z := -2147483648.
Definition INT_MAX : Z := 2147483647.
Definition LONG_MIN : Z := -9223372036854775808.
Definition LONG_MAX : Z := 9223372036854775807.

Definition in_range (z : Z) : Prop := INT_MIN <= z <= INT_MAX.

Definition in_rangeb (z : Z) : bool := (INT_MIN <=? z) && (z <=? INT_MAX).

(** Value of a 32-bit signed computation whose mathematical result is [z]. *)
Definition wrap (z : Z) : Z := (z + 2 ^ 31) mod 2 ^ 32 - 2 ^ 31.

(** [x++] on an [int]. *)
Definition incr (z : Z) : Z := wrap (z + 1).

End CInt.

(** ** Text *)

Definition LF : ascii := ascii_of_nat 10.

(** What [<< endl] appends to a stream. *)
Definition endl : string := String LF EmptyString.

Definition code (c : ascii) : Z := Z.of_nat (nat_of_ascii c).

(** [isspace] in the "C" locale: space, and the controls HT LF VT FF CR. *)
Definition isspace (c : ascii) : bool :=
  (code c =? 32) || ((9 <=? code c) && (code c <=? 13)).

Definition isdigit (c : ascii) : bool :=
  (48 <=? code c) && (code c <=? 57).

Definition digit_value (c : ascii) : Z := code c - 48.

(** ** Streams *)

Record istream : Type := mk_istream
  { pending : string;   (* bytes not yet extracted *)
    eofbit  : bool;
    failbit : bool }.

Definition good (s : istream) : bool := negb (eofbit s) && negb (failbit s).

Record World : Type := mk_world
  { cin  : istream;
    cout : string;
    cerr : string }.

(** Extraction loop of [getline]: characters up to the delimiter, which is
    extracted and dropped.  The boolean tells whether the delimiter was
    found (otherwise the end of the data was reached). *)
Fixpoint read_line (s : string) : string * string * bool :=
  match s with
  | EmptyString => (EmptyString, EmptyString, false)
  | String c s' =>
      if Ascii.eqb c LF then (EmptyString, s', true)
      else let '(l, r, d) := read_line s' in (String c l, r, d)
  end.

(** [std::getline(cin, str)]: the sentry fails on a stream that is not
    [good], which sets [failbit] and leaves [str] alone; otherwise [str] is
    erased and filled, [eofbit] is set when the data ends before a
    delimiter, and [failbit] when nothing at all was extracted. *)
Definition getline (ist : istream) (str : string) : istream * string :=
  if good ist then
    let '(l, r, d) := read_line (pending ist) in
    let extracted := d || negb (String.eqb l EmptyString) in
    (mk_istream r (negb d) (negb extracted), l)
  else
    (mk_istream (pending ist) (eofbit ist) true, str).

(** ** The class state and the process *)

Record JudgeInterface : Type := mk_judge
  { query_count : Z;
    max_queries : Z }.

Record Machine : Type := mk_machine
  { judge : JudgeInterface;
    world : World }.

Inductive exception : Type :=
| invalid_argument (what : string)
| out_of_range (what : string).

Inductive Outcome (A : Type) : Type :=
| Returns (a : A) (m : Machine)
| Exits (status : Z) (w : World)
| Throws (e : exception) (m : Machine).

Arguments Returns {A} a m.
Arguments Exits {A} status w.
Arguments Throws {A} e m.

Definition Proc (A : Type) : Type := Machine -> Outcome A.

Definition ret {A} (a : A) : Proc A := fun m => Returns a m.

Definition bind {A B} (c : Proc A) (k : A -> Proc B) : Proc B :=
  fun m =>
    match c m with
    | Returns a m' => k a m'
    | Exits st w => Exits st w
    | Throws e m' => Throws e m'
    end.

Notation "x <- c ;; k" := (bind c (fun x => k))
  (at level 61, c at next level, right associativity).
Notation "c ;; k" := (bind c (fun _ => k))
  (at level 61, right associativity).

Definition throw {A} (e : exception) : Proc A := fun m => Throws e m.

(** [try { c } catch (...) { h }] *)
Definition try_catch_all {A} (c h : Proc A) : Proc A :=
  fun m =>
    match c m with
    | Throws _ m' => h m'
    | o => o
    end.

(** [exit(status)]: the process ends; only the streams survive it. *)
Definition exit (status : Z) : Proc unit :=
  fun m => Exits status (world m).

Definition put_cout (s : string) : Proc unit :=
  fun m =>
    let w := world m in
    Returns tt (mk_machine (judge m) (mk_world (cin w) (cout w ++ s) (cerr w))).

Definition put_cerr (s : string) : Proc unit :=
  fun m =>
    let w := world m in
    Returns tt (mk_machine (judge m) (mk_world (cin w) (cout w) (cerr w ++ s))).

(** ** [JudgeInterface] *)

(** [JudgeInterface() : query_count(0), max_queries(100) {}] *)
Definition JudgeInterface_new : JudgeInterface := mk_judge 0 100.

Definition set_max_queries (max : Z) : Proc unit :=
  fun m => Returns tt (mk_machine (mk_judge (query_count (judge m)) max) (world m)).

Definition output (message : string) : Proc unit :=
  put_cout message ;; put_cout endl.

Definition correct_answer : Proc unit := exit 0.

Definition wrong_answer (message : string) : Proc unit :=
  put_cerr "Wrong Answer: " ;; put_cerr message ;; put_cerr endl ;;
  exit 1.

Definition limit_message : string := "クエリ制限超過".

Definition input : Proc string :=
  (fun m =>
     if query_count (judge m) >=? max_queries (judge m)
     then wrong_answer limit_message m
     else Returns tt m) ;;
  (fun m =>
     Returns tt (mk_machine
                   (mk_judge (CInt.incr (query_count (judge m)))
                             (max_queries (judge m)))
                   (world m))) ;;
  (fun m =>
     let w := world m in
     let '(ist, line) := getline (cin w) EmptyString in
     Returns line (mk_machine (judge m) (mk_world ist (cout w) (cerr w)))).

(** ** [std::stoi] *)

Fixpoint skip_space (s : string) : string :=
  match s with
  | String c s' => if isspace c then skip_space s' else s
  | EmptyString => EmptyString
  end.

Definition take_sign (s : string) : bool * string :=
  match s with
  | String c s' =>
      if Ascii.eqb c "-" then (true, s')
      else if Ascii.eqb c "+" then (false, s')
      else (false, s)
  | EmptyString => (false, EmptyString)
  end.

Fixpoint scan_digits (acc : Z) (s : string) : Z * string :=
  match s with
  | String c s' =>
      if isdigit c then scan_digits (10 * acc + digit_value c) s' else (acc, s)
  | EmptyString => (acc, EmptyString)
  end.

Record strtol_result : Type := mk_strtol
  { value  : Z;      (* the [long] returned *)
    endptr : nat;    (* offset of the first byte not converted *)
    erange : bool }. (* [errno == ERANGE] *)

(** [strtol(str, &endptr, 10)]: leading white space, an optional sign, then
    the longest run of decimal digits.  Without a digit there is no
    conversion and [endptr] is [str]; a value that does not fit a [long] is
    clamped and reported through [errno]. *)
Definition strtol (s : string) : strtol_result :=
  let s1 := skip_space s in
  let '(neg, s2) := take_sign s1 in
  let '(v, s3) := scan_digits 0 s2 in
  if (String.length s3 =? String.length s2)%nat then mk_strtol 0 0 false
  else
    let e := (String.length s - String.length s3)%nat in
    let v := if neg then - v else v in
    if v <? CInt.LONG_MIN then mk_strtol CInt.LONG_MIN e true
    else if CInt.LONG_MAX <? v then mk_strtol CInt.LONG_MAX e true
    else mk_strtol v e false.

(** [std::stoi(str)]: [invalid_argument] when nothing was converted,
    [out_of_range] when the value does not fit an [int]. *)
Definition stoi (str : string) : Proc Z :=
  let r := strtol str in
  if (endptr r =? 0)%nat then throw (invalid_argument "stoi")
  else if erange r || negb (CInt.in_rangeb (value r))
       then throw (out_of_range "stoi")
       else ret (value r).

(** ** [main]: the number-guessing example *)

Definition greeting : string :=
  "数当てゲームを開始します。1から100の数字を当ててください。".
Definition correct_message : string := "正解です！".
Definition bigger_message : string := "もっと大きいです".
Definition smaller_message : string := "もっと小さいです".
Definition invalid_message : string := "不正な入力です".

(** The [try] block of the loop body, for the line just read. *)
Definition judge_guess (n : Z) (line : string) : Proc unit :=
  guess <- stoi line ;;
  if guess =? n then output correct_message ;; correct_answer
  else if guess <? n then output bigger_message
  else output smaller_message.

(** One turn of [while (true) { ... }]. *)
Definition loop_body (n : Z) : Proc unit :=
  line <- input ;;
  try_catch_all (judge_guess n line) (wrong_answer invalid_message).

(** [fuel] turns of the loop.  The loop has no exit of its own, so
    [Returns] here only ever means that the session is still running after
    [fuel] turns. *)
Fixpoint main_loop (fuel : nat) (n : Z) : Proc unit :=
  match fuel with
  | O => ret tt
  | S fuel' => loop_body n ;; main_loop fuel' n
  end.

Definition main (fuel : nat) : Proc unit :=
  (fun m => Returns tt (mk_machine JudgeInterface_new (world m))) ;;
  let n := 42 in
  output greeting ;;
  main_loop fuel n.

(** The process at start-up, with [stdin] as everything the solution under
    test will ever write before it closes its end of the pipe. *)
Definition boot (stdin : string) : Machine :=
  mk_machine JudgeInterface_new
             (mk_world (mk_istream stdin false false) EmptyString EmptyString).

Definition lines (l : list string) : string :=
  fold_right (fun s acc => s ++ endl ++ acc)%string EmptyString l.

(** ** Sessions *)

(** The fields of the object are [int]s. *)
Definition wf_judge (j : JudgeInterface) : Prop :=
  CInt.in_range (query_count j) /\ CInt.in_range (max_queries j).

(** The streams after [wrong_answer(message)], as seen at process exit. *)
Definition reject_world (w : World) (message : string) : World :=
  mk_world (cin w) (cout w) (cerr w ++ "Wrong Answer: " ++ message ++ endl).

(** The streams after [output(message)]. *)
Definition emit_world (w : World) (message : string) : World :=
  mk_world (cin w) (cout w ++ message ++ endl) (cerr w).

(** [reads k m0 m]: the session went from [m0] to [m] through [k] calls of
    [input()] that returned, with any calls of [output] in between. *)
Inductive reads : nat -> Machine -> Machine -> Prop :=
| reads_start m : reads 0 m m
| reads_emit k m0 m message m' :
    reads k m0 m -> output message m = Returns tt m' -> reads k m0 m'
| reads_receive k m0 m line m' :
    reads k m0 m -> input m = Returns line m' -> reads (S k) m0 m'.

(** Whether the byte [c] occurs in [s]. *)
Fixpoint has_char (c : ascii) (s : string) : bool :=
  match s with
  | EmptyString => false
  | String c' s' => Ascii.eqb c' c || has_char c s'
  end.

(** The integer a run of decimal digits denotes, by position. *)
Fixpoint decimal (ds : string) : Z :=
  match ds with
  | EmptyString => 0
  | String c ds' => digit_value c * 10 ^ Z.of_nat (String.length ds') + decimal ds'
  end.

Fixpoint all_chars (p : ascii -> bool) (s : string) : bool :=
  match s with
  | EmptyString => true
  | String c s' => p c && all_chars p s'
  end.

Definition starts_with_digit (s : string) : bool :=
  match s with
  | String c _ => isdigit c
  | EmptyString => false
  end.

(** ** Values used to state the properties *)

(** Scenario B of the specification: limit 2, and a solution that sends
    "10", "20" and would go on with "30". *)
Definition scenario_B_start : Machine :=
  mk_machine (mk_judge 0 2) (world (boot (lines ["10"; "20"; "30"]))).

Definition scenario_B_after_two : Machine :=
  mk_machine (mk_judge 2 2)
             (mk_world (mk_istream (lines ["30"]) false false)
                       EmptyString EmptyString).

Definition scenario_B_after_one : Machine :=
  mk_machine (mk_judge 1 2)
             (mk_world (mk_istream (lines ["20"; "30"]) false false)
                       EmptyString EmptyString).

(** The optional sign in front of a number. *)
Inductive sign : Type := NoSign | Plus | Minus.

Definition sign_text (sg : sign) : string :=
  match sg with
  | NoSign => EmptyString
  | Plus => "+"
  | Minus => "-"
  end.

Definition signed (sg : sign) (v : Z) : Z :=
  match sg with
  | Minus => - v
  | _ => v
  end.

(** The machine right after an accepted [input()]. *)
Definition after_read (m : Machine) : Machine :=
  mk_machine
    (mk_judge (CInt.incr (query_count (judge m))) (max_queries (judge m)))
    (mk_world (fst (getline (cin (world m)) EmptyString))
              (cout (world m)) (cerr (world m))).

(** The process after [input()] took the only line of [cin]. *)
Definition after_single_line : Machine :=
  mk_machine (mk_judge 1 100)
             (mk_world (mk_istream EmptyString false false)
                       EmptyString EmptyString).

(** The feedback line of the example for a guess [v] other than the
    target [n]. *)
Definition feedback (n v : Z) : string :=
  if v <? n then bigger_message else smaller_message.

(** A line the solution sends, with the value [stoi] reads from it: a
    guess other than [n], with no line feed inside the line. *)
Definition wrong_guess (n : Z) (g : string * Z) : Prop :=
  has_char LF (fst g) = false /\
  snd g <> n /\
  forall m, stoi (fst g) m = Returns (snd g) m.

Definition is_feedback (s : string) : Prop :=
  s = bigger_message \/ s = smaller_message.

(** Whether [s] holds no decimal digit at all. *)
Definition no_digit (s : string) : bool :=
  all_chars (fun c => negb (isdigit c)) s.

(** * Properties *)

(** ** Basic facts *)

Lemma sapp_assoc (a b c : string) : ((a ++ b) ++ c = a ++ (b ++ c))%string.
Proof.
  induction a as [|x a IH]; simpl; [reflexivity | now rewrite IH].
Qed.

Lemma wrap_in_range (z : Z) : CInt.in_range z -> CInt.wrap z = z.
Proof.
  unfold CInt.in_range, CInt.wrap, CInt.INT_MIN, CInt.INT_MAX. intros H.
  rewrite Z.mod_small; lia.
Qed.

Lemma incr_below (c limit : Z) :
  CInt.INT_MIN <= c -> c < limit -> limit <= CInt.INT_MAX -> CInt.incr c = c + 1.
Proof.
  intros Hlo Hlt Hhi. unfold CInt.incr. apply wrap_in_range.
  unfold CInt.in_range. lia.
Qed.

Lemma output_spec (message : string) (m : Machine) :
  output message m = Returns tt (mk_machine (judge m) (emit_world (world m) message)).
Proof.
  unfold output, bind, put_cout, emit_world. simpl.
  now rewrite sapp_assoc.
Qed.

Lemma wrong_answer_spec (message : string) (m : Machine) :
  wrong_answer message m = Exits 1 (reject_world (world m) message).
Proof.
  unfold wrong_answer, bind, put_cerr, exit, reject_world. simpl.
  now rewrite !sapp_assoc.
Qed.

Lemma input_over_limit (m : Machine) :
  max_queries (judge m) <= query_count (judge m) ->
  input m = Exits 1 (reject_world (world m) limit_message).
Proof.
  intros H. unfold input, bind.
  destruct (Z.geb_spec (query_count (judge m)) (max_queries (judge m))) as [_|Hlt];
    [| lia].
  now rewrite wrong_answer_spec.
Qed.

Lemma input_under_limit (m : Machine) :
  query_count (judge m) < max_queries (judge m) ->
  input m =
    Returns (snd (getline (cin (world m)) EmptyString))
            (mk_machine
               (mk_judge (CInt.incr (query_count (judge m))) (max_queries (judge m)))
               (mk_world (fst (getline (cin (world m)) EmptyString))
                         (cout (world m)) (cerr (world m)))).
Proof.
  intros H. unfold input, bind.
  destruct (Z.geb_spec (query_count (judge m)) (max_queries (judge m))) as [Hge|_];
    [lia |].
  simpl. now destruct (getline (cin (world m)) EmptyString).
Qed.

(** ** The query counter along a session *)

Section Session.

(** A session that starts with no query used and a limit that is a
    non-negative [int]. *)
Variable limit : Z.
Variable m0 : Machine.
Hypothesis limit_nonneg : 0 <= limit.
Hypothesis limit_int : limit <= CInt.INT_MAX.
Hypothesis start : judge m0 = mk_judge 0 limit.

Lemma reads_counter (k : nat) (m : Machine) :
  reads k m0 m ->
  judge m = mk_judge (Z.of_nat k) limit /\ Z.of_nat k <= limit.
Proof.
  induction 1 as [m | k m0 m message m' _ IH Hout | k m0 m line m' _ IH Hin].
  - split; [exact start | exact limit_nonneg].
  - specialize (IH start).
    rewrite output_spec in Hout. injection Hout as <-. exact IH.
  - destruct (IH start) as [Hj Hle].
    destruct (Z.lt_ge_cases (query_count (judge m)) (max_queries (judge m)))
      as [Hlt | Hge].
    + rewrite (input_under_limit m Hlt) in Hin. injection Hin as _ <-.
      simpl. rewrite Hj in *. simpl in *.
      rewrite (incr_below (Z.of_nat k) limit); unfold CInt.INT_MIN; try lia.
      split; [f_equal; lia | lia].
    + rewrite (input_over_limit m Hge) in Hin. discriminate.
Qed.

(** [input()] returns as long as the counter is below the limit, so a
    session can always be driven to [k] accepted reads for [k <= limit]. *)
Lemma reads_exist (k : nat) :
  Z.of_nat k <= limit -> exists m, reads k m0 m.
Proof.
  induction k as [|k IH]; intros Hk.
  - exists m0. constructor.
  - destruct IH as [m Hm]; [lia |].
    destruct (reads_counter k m Hm) as [Hj _].
    assert (Hlt : query_count (judge m) < max_queries (judge m))
      by (rewrite Hj; simpl; lia).
    eexists. eapply reads_receive; [exact Hm | exact (input_under_limit m Hlt)].
Qed.

End Session.

Lemma scenario_B_reads : reads 2 scenario_B_start scenario_B_after_two.
Proof.
  apply (reads_receive 1 _ scenario_B_after_one "20");
    [apply (reads_receive 0 _ scenario_B_start "10"); [apply reads_start |] |];
    reflexivity.
Defined.

(** C1: with [query_limit = N], [N > 0], the session can take [N] accepted
    calls of [input()], and whatever was read and written during them, the
    next call of [input()] ends the process with status 1 and the
    query-limit reason on [cerr]; [cin] and [cout] are as they were before
    the call, so no line was read. *)
Theorem receive_beyond_limit_rejects (N : Z) (m0 : Machine)
  (Hpos : 0 < N) (Hint : N <= CInt.INT_MAX)
  (Hstart : judge m0 = mk_judge 0 N) :
  (exists m, reads (Z.to_nat N) m0 m) /\
  (forall m, reads (Z.to_nat N) m0 m ->
     input m =
       Exits 1 (mk_world (cin (world m)) (cout (world m))
                  (cerr (world m) ++ "Wrong Answer: " ++ limit_message ++ endl))).
Proof.
  assert (Hnn : 0 <= N) by lia.
  split.
  - apply (reads_exist N m0 Hnn Hint Hstart). lia.
  - intros m Hm.
    destruct (reads_counter N m0 Hnn Hint Hstart _ m Hm) as [Hj _].
    rewrite input_over_limit; [reflexivity |].
    rewrite Hj. simpl. lia.
Qed.

Lemma receive_beyond_limit_rejects_witness :
  0 < 2 /\ 2 <= CInt.INT_MAX /\
  judge scenario_B_start = mk_judge 0 2 /\
  reads (Z.to_nat 2) scenario_B_start scenario_B_after_two /\
  input scenario_B_after_two =
    Exits 1 (mk_world (mk_istream (lines ["30"]) false false) EmptyString
               ("Wrong Answer: " ++ limit_message ++ endl)).
Proof.
  assert (H1 : 0 < 2) by lia.
  assert (H2 : 2 <= CInt.INT_MAX) by (unfold CInt.INT_MAX; lia).
  split; [exact H1 |]. split; [exact H2 |]. split; [reflexivity |].
  split; [exact scenario_B_reads |].
  exact (proj2 (receive_beyond_limit_rejects 2 scenario_B_start H1 H2 eq_refl)
               scenario_B_after_two scenario_B_reads).
Defined.

(** C2: in a session that starts with no query used and a limit that is a
    non-negative [int], after [k] calls of [input()] that returned
    (with any output in between) [query_count] is exactly [k] and is at most
    [max_queries]; a call of [input()] only returns when [query_count] was
    within [max_queries] before it, and a call made with [query_count] above
    [max_queries] ends the process through [wrong_answer] at once. *)
Theorem query_count_equals_accepted_reads (limit : Z) (m0 m : Machine) (k : nat)
  (Hnonneg : 0 <= limit) (Hint : limit <= CInt.INT_MAX)
  (Hstart : judge m0 = mk_judge 0 limit)
  (Hreads : reads k m0 m) :
  query_count (judge m) = Z.of_nat k /\
  query_count (judge m) <= max_queries (judge m) /\
  (forall x line x', input x = Returns line x' ->
     query_count (judge x) <= max_queries (judge x)) /\
  (forall x, max_queries (judge x) < query_count (judge x) ->
     input x =
       Exits 1 (mk_world (cin (world x)) (cout (world x))
                  (cerr (world x) ++ "Wrong Answer: " ++ limit_message ++ endl))).
Proof.
  destruct (reads_counter limit m0 Hnonneg Hint Hstart k m Hreads) as [Hj Hle].
  rewrite Hj. simpl. repeat split; try assumption.
  - intros x line x' Hin.
    destruct (Z.lt_ge_cases (query_count (judge x)) (max_queries (judge x)))
      as [Hlt | Hge]; [lia |].
    rewrite (input_over_limit x Hge) in Hin. discriminate.
  - intros x Hx. rewrite input_over_limit; [reflexivity | lia].
Qed.

Lemma query_count_equals_accepted_reads_witness :
  0 <= 2 /\ 2 <= CInt.INT_MAX /\
  judge scenario_B_start = mk_judge 0 2 /\
  reads 2 scenario_B_start scenario_B_after_two /\
  query_count (judge scenario_B_after_two) = Z.of_nat 2 /\
  query_count (judge scenario_B_after_two) <= max_queries (judge scenario_B_after_two).
Proof.
  assert (H1 : 0 <= 2) by lia.
  assert (H2 : 2 <= CInt.INT_MAX) by (unfold CInt.INT_MAX; lia).
  pose proof (query_count_equals_accepted_reads 2 scenario_B_start
                scenario_B_after_two 2 H1 H2 eq_refl scenario_B_reads) as H.
  split; [exact H1 |]. split; [exact H2 |]. split; [reflexivity |].
  split; [exact scenario_B_reads |].
  split; [exact (proj1 H) | exact (proj1 (proj2 H))].
Defined.

(** ** [stoi] on a line that begins with a decimal integer *)

Lemma length_sapp (a b : string) :
  String.length (a ++ b) = (String.length a + String.length b)%nat.
Proof.
  induction a as [|x a IH]; simpl; [reflexivity | now rewrite IH].
Qed.

Lemma digit_not_space (c : ascii) : isdigit c = true -> isspace c = false.
Proof.
  unfold isdigit, isspace. intros H.
  apply andb_prop in H. destruct H as [H1 H2].
  apply Z.leb_le in H1. apply Z.leb_le in H2.
  apply orb_false_intro.
  - apply Z.eqb_neq. lia.
  - apply andb_false_intro2. apply Z.leb_gt. lia.
Qed.

Lemma digit_not_sign (c : ascii) :
  isdigit c = true -> Ascii.eqb c "-" = false /\ Ascii.eqb c "+" = false.
Proof.
  intros H. split; apply Ascii.eqb_neq; intros ->; discriminate H.
Qed.

Lemma digit_value_range (c : ascii) :
  isdigit c = true -> 0 <= digit_value c <= 9.
Proof.
  unfold isdigit, digit_value. intros H.
  apply andb_prop in H. destruct H as [H1 H2].
  apply Z.leb_le in H1. apply Z.leb_le in H2. lia.
Qed.

Lemma skip_space_sapp (ws s : string) :
  all_chars isspace ws = true -> skip_space (ws ++ s) = skip_space s.
Proof.
  induction ws as [|c ws IH]; simpl; intros H; [reflexivity |].
  apply andb_prop in H. destruct H as [Hc Hws].
  rewrite Hc. now apply IH.
Qed.

Lemma scan_digits_sapp (ds rest : string) (acc : Z) :
  all_chars isdigit ds = true -> starts_with_digit rest = false ->
  scan_digits acc (ds ++ rest) =
    (acc * 10 ^ Z.of_nat (String.length ds) + decimal ds, rest).
Proof.
  intros Hds Hrest. revert acc.
  induction ds as [|c ds IH]; intros acc.
  - cbn [append String.length decimal]. change (Z.of_nat 0) with 0.
    rewrite Z.pow_0_r, Z.mul_1_r, Z.add_0_r.
    destruct rest as [|r rest']; simpl in *; [reflexivity |].
    now rewrite Hrest.
  - simpl in Hds. apply andb_prop in Hds. destruct Hds as [Hc Hds'].
    cbn [append scan_digits String.length decimal].
    rewrite Hc, (IH Hds'). f_equal.
    rewrite Nat2Z.inj_succ, Z.pow_succ_r by lia. ring.
Qed.

Lemma decimal_nonneg (ds : string) : all_chars isdigit ds = true -> 0 <= decimal ds.
Proof.
  induction ds as [|c ds IH]; simpl; intros H; [lia |].
  apply andb_prop in H. destruct H as [Hc Hds].
  pose proof (digit_value_range c Hc). specialize (IH Hds).
  assert (0 <= 10 ^ Z.of_nat (String.length ds)) by (apply Z.pow_nonneg; lia).
  nia.
Qed.

Section IntegerPrefix.

(** A line made of white space, an optional sign, a non-empty run of
    digits, and a tail that does not go on with a digit. *)
Variables (ws ds rest : string) (sg : sign).
Hypothesis ws_space : all_chars isspace ws = true.
Hypothesis ds_digits : all_chars isdigit ds = true.
Hypothesis ds_nonempty : ds <> EmptyString.
Hypothesis rest_stops : starts_with_digit rest = false.

Local Abbreviation line := (ws ++ sign_text sg ++ ds ++ rest).
Local Abbreviation v := (signed sg (decimal ds)).

Local Abbreviation e := (String.length line - String.length rest)%nat.

Lemma first_digit :
  exists d ds', ds = String d ds' /\ isdigit d = true.
Proof.
  destruct ds as [|d ds'] eqn:Eds; [contradiction |].
  exists d, ds'. split; [reflexivity |].
  simpl in ds_digits. now apply andb_prop in ds_digits.
Qed.

Lemma strtol_integer_prefix :
  strtol line =
    if v <? CInt.LONG_MIN then mk_strtol CInt.LONG_MIN e true
    else if CInt.LONG_MAX <? v then mk_strtol CInt.LONG_MAX e true
    else mk_strtol v e false.
Proof.
  unfold strtol.
  rewrite (skip_space_sapp ws _ ws_space).
  destruct first_digit as [d [ds' [Eds Hd]]].
  assert (Hsk : skip_space (sign_text sg ++ ds ++ rest)
                = sign_text sg ++ ds ++ rest).
  { rewrite Eds.
    destruct sg; simpl; [now rewrite (digit_not_space d Hd) | reflexivity ..]. }
  rewrite Hsk.
  assert (Hsign : take_sign (sign_text sg ++ ds ++ rest)
                  = (match sg with Minus => true | _ => false end, ds ++ rest)).
  { rewrite Eds. destruct sg; simpl; try reflexivity.
    destruct (digit_not_sign d Hd) as [-> ->]. reflexivity. }
  rewrite Hsign.
  rewrite (scan_digits_sapp ds rest 0 ds_digits rest_stops).
  rewrite Z.mul_0_l, Z.add_0_l.
  rewrite (length_sapp ds rest).
  destruct (Nat.eqb_spec (String.length rest)
              (String.length ds + String.length rest)) as [E|_];
    [rewrite Eds in E; simpl in E; lia |].
  assert (Hval : (if match sg with Minus => true | _ => false end
                  then - decimal ds else decimal ds) = v).
  { destruct sg; reflexivity. }
  rewrite Hval. reflexivity.
Qed.

Lemma endptr_advanced : e <> 0%nat.
Proof.
  rewrite !length_sapp.
  destruct first_digit as [d [ds' [-> _]]]. simpl. lia.
Qed.

Lemma stoi_integer_prefix (m : Machine) :
  CInt.in_range v -> stoi line m = Returns v m.
Proof.
  intros Hv. unfold stoi. rewrite strtol_integer_prefix.
  unfold CInt.in_range, CInt.INT_MIN, CInt.INT_MAX in Hv.
  destruct (Z.ltb_spec v CInt.LONG_MIN) as [H|_];
    [unfold CInt.LONG_MIN in H; lia |].
  destruct (Z.ltb_spec CInt.LONG_MAX v) as [H|_];
    [unfold CInt.LONG_MAX in H; lia |].
  cbn [endptr erange value].
  destruct (Nat.eqb_spec e 0) as [E|_]; [now apply endptr_advanced in E |].
  assert (Hin : CInt.in_rangeb v = true).
  { unfold CInt.in_rangeb, CInt.INT_MIN, CInt.INT_MAX.
    apply andb_true_intro. split; apply Z.leb_le; lia. }
  rewrite Hin. reflexivity.
Qed.

(** Outside the range of [int] the same line makes [stoi] throw. *)
Lemma stoi_integer_prefix_out_of_range (m : Machine) :
  ~ CInt.in_range v -> stoi line m = Throws (out_of_range "stoi") m.
Proof.
  intros Hv. unfold stoi. rewrite strtol_integer_prefix.
  assert (Hout : CInt.in_rangeb v = false).
  { unfold CInt.in_rangeb. unfold CInt.in_range in Hv.
    destruct (Z.leb_spec CInt.INT_MIN v), (Z.leb_spec v CInt.INT_MAX);
      simpl; try reflexivity. lia. }
  destruct (Z.ltb_spec v CInt.LONG_MIN);
    [| destruct (Z.ltb_spec CInt.LONG_MAX v)];
    cbn [endptr erange value];
    (destruct (Nat.eqb_spec e 0) as [E|_]; [now apply endptr_advanced in E |]);
    try reflexivity.
  rewrite Hout. reflexivity.
Qed.

End IntegerPrefix.

(** ** [getline] *)

Lemma read_line_terminated (line rest : string) :
  has_char LF line = false ->
  read_line (line ++ endl ++ rest) = (line, rest, true).
Proof.
  induction line as [|c line IH]; intros H; [reflexivity |].
  cbn [has_char] in H. apply orb_false_elim in H. destruct H as [Hc Hl].
  cbn [append read_line]. rewrite Hc, (IH Hl). reflexivity.
Qed.

Lemma read_line_unterminated (line : string) :
  has_char LF line = false -> read_line line = (line, EmptyString, false).
Proof.
  induction line as [|c line IH]; simpl; intros H; [reflexivity |].
  apply orb_false_elim in H. destruct H as [Hc Hl].
  rewrite Hc, (IH Hl). reflexivity.
Qed.

Lemma getline_terminated (ist : istream) (line rest : string) :
  good ist = true -> pending ist = line ++ endl ++ rest ->
  has_char LF line = false ->
  getline ist EmptyString = (mk_istream rest false false, line).
Proof.
  intros Hg Hp Hl. unfold getline.
  rewrite Hg, Hp, (read_line_terminated line rest Hl). reflexivity.
Qed.

(** The last line of a stream that ends without a line feed is still
    extracted; reaching the end of the data sets [eofbit] only. *)
Lemma getline_unterminated (ist : istream) (line : string) :
  good ist = true -> pending ist = line ->
  line <> EmptyString -> has_char LF line = false ->
  getline ist EmptyString = (mk_istream EmptyString true false, line).
Proof.
  intros Hg Hp Hne Hl. unfold getline.
  rewrite Hg, Hp, (read_line_unterminated line Hl).
  destruct (String.eqb_spec line EmptyString) as [E|_]; [contradiction |].
  reflexivity.
Qed.

(** On a stream with nothing left, whatever its state bits, [getline]
    extracts nothing, leaves the string empty and sets [failbit]. *)
Lemma getline_exhausted (ist : istream) :
  pending ist = EmptyString ->
  getline ist EmptyString =
    (mk_istream EmptyString (eofbit ist || good ist) true, EmptyString).
Proof.
  intros Hp. unfold getline. rewrite Hp.
  destruct (good ist) eqn:Hg; simpl.
  - now rewrite orb_true_r.
  - now rewrite orb_false_r.
Qed.

(** ** One turn of the guessing loop *)

(** [stoi] neither ends the process nor touches the machine. *)
Lemma stoi_cases (str : string) (m : Machine) :
  (exists v, stoi str m = Returns v m /\ CInt.in_range v) \/
  (exists e, stoi str m = Throws e m).
Proof.
  unfold stoi, throw, ret.
  destruct (endptr (strtol str) =? 0)%nat; [right; eauto |].
  destruct (erange (strtol str)); simpl; [right; eauto |].
  destruct (CInt.in_rangeb (value (strtol str))) eqn:Hr; simpl;
    [left | right; eauto].
  eexists. split; [reflexivity |].
  unfold CInt.in_rangeb in Hr. apply andb_prop in Hr. destruct Hr as [H1 H2].
  apply Z.leb_le in H1. apply Z.leb_le in H2. split; assumption.
Qed.

Lemma guess_rejected (n : Z) (line : string) (m : Machine) (e : exception) :
  stoi line m = Throws e m ->
  try_catch_all (judge_guess n line) (wrong_answer invalid_message) m =
    Exits 1 (reject_world (world m) invalid_message).
Proof.
  intros H. unfold try_catch_all, judge_guess, bind. rewrite H.
  apply wrong_answer_spec.
Qed.

Lemma guess_judged (n : Z) (line : string) (m : Machine) (v : Z) :
  stoi line m = Returns v m ->
  try_catch_all (judge_guess n line) (wrong_answer invalid_message) m =
    if v =? n then Exits 0 (emit_world (world m) correct_message)
    else if v <? n
         then Returns tt (mk_machine (judge m) (emit_world (world m) bigger_message))
         else Returns tt (mk_machine (judge m) (emit_world (world m) smaller_message)).
Proof.
  intros H. unfold try_catch_all, judge_guess.
  unfold bind at 1. rewrite H.
  destruct (v =? n).
  - unfold bind. rewrite output_spec. reflexivity.
  - destruct (v <? n); rewrite output_spec; reflexivity.
Qed.

Lemma loop_body_under_limit (n : Z) (m : Machine) :
  query_count (judge m) < max_queries (judge m) ->
  loop_body n m =
    try_catch_all
      (judge_guess n (snd (getline (cin (world m)) EmptyString)))
      (wrong_answer invalid_message) (after_read m).
Proof.
  intros H. unfold loop_body. unfold bind at 1.
  rewrite (input_under_limit m H). reflexivity.
Qed.

Lemma loop_body_over_limit (n : Z) (m : Machine) :
  max_queries (judge m) <= query_count (judge m) ->
  loop_body n m = Exits 1 (reject_world (world m) limit_message).
Proof.
  intros H. unfold loop_body. unfold bind at 1.
  rewrite (input_over_limit m H). reflexivity.
Qed.

(** A turn ends the process with status 0 or 1, or returns with one more
    query counted; it never lets an exception through. *)
Lemma loop_body_cases (n : Z) (m : Machine) :
  (exists st w, loop_body n m = Exits st w /\ (st = 0 \/ st = 1)) \/
  (exists m', loop_body n m = Returns tt m' /\
              query_count (judge m) < max_queries (judge m) /\
              judge m' = mk_judge (CInt.incr (query_count (judge m)))
                                  (max_queries (judge m))).
Proof.
  destruct (Z.lt_ge_cases (query_count (judge m)) (max_queries (judge m)))
    as [Hlt | Hge].
  - rewrite (loop_body_under_limit n m Hlt).
    set (line := snd (getline (cin (world m)) EmptyString)).
    destruct (stoi_cases line (after_read m)) as [[v [Hv _]] | [e He]].
    + rewrite (guess_judged n line _ v Hv).
      destruct (v =? n); [left; eauto |].
      destruct (v <? n); right; eexists; (split; [reflexivity |]);
        split; solve [assumption | reflexivity].
    + rewrite (guess_rejected n line _ e He). left; eauto.
  - rewrite (loop_body_over_limit n m Hge). left; eauto.
Qed.

(** ** Termination of [main] *)

Lemma main_loop_cases (n : Z) (fuel : nat) (m : Machine) :
  (exists st w, main_loop fuel n m = Exits st w /\ (st = 0 \/ st = 1)) \/
  (exists m', main_loop fuel n m = Returns tt m').
Proof.
  revert m. induction fuel as [|fuel IH]; intros m; simpl.
  - right. eexists. reflexivity.
  - unfold bind.
    destruct (loop_body_cases n m) as [[st [w [-> Hst]]] | [m' [-> _]]].
    + left; eauto.
    + apply IH.
Qed.

Lemma main_loop_terminates (n : Z) (fuel : nat) (m : Machine) :
  CInt.INT_MIN <= query_count (judge m) ->
  max_queries (judge m) <= CInt.INT_MAX ->
  max_queries (judge m) - query_count (judge m) <= Z.of_nat fuel ->
  exists st w, main_loop (S fuel) n m = Exits st w /\ (st = 0 \/ st = 1).
Proof.
  revert m. induction fuel as [|fuel IH]; intros m Hlo Hhi Hfuel.
  - cbn [main_loop]. unfold bind.
    rewrite loop_body_over_limit by lia. eauto.
  - change (main_loop (S (S fuel)) n) with (loop_body n ;; main_loop (S fuel) n).
    unfold bind.
    destruct (loop_body_cases n m) as [[st [w [-> Hst]]] | [m' [-> [Hlt Hj]]]];
      [eauto |].
    rewrite (incr_below _ _ Hlo Hlt Hhi) in Hj.
    apply IH; rewrite Hj; simpl; lia.
Qed.

Lemma main_start (fuel : nat) (m : Machine) :
  main fuel m =
    main_loop fuel 42
      (mk_machine JudgeInterface_new (emit_world (world m) greeting)).
Proof.
  unfold main. unfold bind at 1. unfold bind at 1.
  rewrite output_spec. reflexivity.
Qed.

Lemma main_terminates (extra : nat) (m : Machine) :
  exists st w, main (101 + extra) m = Exits st w /\ (st = 0 \/ st = 1).
Proof.
  rewrite main_start.
  change (101 + extra)%nat with (S (100 + extra)).
  apply (main_loop_terminates 42 (100 + extra));
    unfold JudgeInterface_new, CInt.INT_MIN, CInt.INT_MAX;
    cbn [judge query_count max_queries]; lia.
Qed.

Lemma main_never_throws (fuel : nat) (m : Machine) (e : exception) (m' : Machine) :
  main fuel m <> Throws e m'.
Proof.
  rewrite main_start.
  destruct (main_loop_cases 42 fuel
              (mk_machine JudgeInterface_new (emit_world (world m) greeting)))
    as [[st [w [-> _]]] | [x ->]]; discriminate.
Qed.

(** * The claims of the specification *)

(** C3: [correct_answer()] always ends the process with status 0 and
    [wrong_answer(reason)] with a status other than 0; whatever follows
    either call, also inside a [try] block, is never run, so the streams at
    exit are those of the call.  No other operation of the class ends the
    process ([input()] does so only through [wrong_answer]), and [main]
    always ends, with status 0 or 1, never by an exception that escapes. *)
Theorem verdict_calls_end_the_process :
  (forall m, correct_answer m = Exits 0 (world m)) /\
  (forall reason m, exists st w, wrong_answer reason m = Exits st w /\ st <> 0) /\
  (forall (A : Type) (rest : unit -> Proc A) (h : Proc A) m,
     bind correct_answer rest m = Exits 0 (world m) /\
     try_catch_all (bind correct_answer rest) h m = Exits 0 (world m)) /\
  (forall (A : Type) reason (rest : unit -> Proc A) (h : Proc A) m,
     bind (wrong_answer reason) rest m =
       Exits 1 (mk_world (cin (world m)) (cout (world m))
                  (cerr (world m) ++ "Wrong Answer: " ++ reason ++ endl)) /\
     try_catch_all (bind (wrong_answer reason) rest) h m =
       Exits 1 (mk_world (cin (world m)) (cout (world m))
                  (cerr (world m) ++ "Wrong Answer: " ++ reason ++ endl))) /\
  (forall message m, exists m', output message m = Returns tt m') /\
  (forall max m, exists m', set_max_queries max m = Returns tt m') /\
  (forall m, (exists line m', input m = Returns line m') \/
             (exists w, input m = Exits 1 w /\
                        wrong_answer limit_message m = Exits 1 w)) /\
  (forall extra m, exists st w,
     main (101 + extra) m = Exits st w /\ (st = 0 \/ st = 1)) /\
  (forall fuel m e m', main fuel m <> Throws e m').
Proof.
  split; [reflexivity |].
  split.
  { intros reason m. exists 1. eexists.
    split; [apply wrong_answer_spec | discriminate]. }
  split; [intros; split; reflexivity |].
  split.
  { intros A reason rest h m. unfold try_catch_all, bind.
    rewrite wrong_answer_spec. split; reflexivity. }
  split; [intros; eexists; apply output_spec |].
  split; [intros; eexists; reflexivity |].
  split.
  { intros m.
    destruct (Z.lt_ge_cases (query_count (judge m)) (max_queries (judge m)))
      as [Hlt | Hge].
    - left. do 2 eexists. apply (input_under_limit m Hlt).
    - right. eexists. split;
        [apply (input_over_limit m Hge) | apply wrong_answer_spec]. }
  split; [exact main_terminates | exact main_never_throws].
Qed.

(** C4: a call of [input()] made with [query_count < max_queries], on a
    readable [cin] that holds a line ended by a line feed, adds exactly one
    to [query_count], takes exactly that line and its line feed out of
    [cin], and returns the line without the line feed; [max_queries],
    [cout] and [cerr] are untouched. *)
Theorem input_takes_one_line (m : Machine) (line rest : string)
  (Hwf : wf_judge (judge m))
  (Hlt : query_count (judge m) < max_queries (judge m))
  (Hgood : good (cin (world m)) = true)
  (Hpending : pending (cin (world m)) = line ++ endl ++ rest)
  (Hline : has_char LF line = false) :
  input m =
    Returns line
      (mk_machine
         (mk_judge (query_count (judge m) + 1) (max_queries (judge m)))
         (mk_world (mk_istream rest false false)
                   (cout (world m)) (cerr (world m)))).
Proof.
  destruct Hwf as [[Hlo _] [_ Hhi]].
  rewrite (input_under_limit m Hlt).
  rewrite (getline_terminated _ line rest Hgood Hpending Hline).
  rewrite (incr_below _ _ Hlo Hlt Hhi). reflexivity.
Qed.

Lemma input_takes_one_line_witness :
  wf_judge (judge (boot (lines ["50"; "70"]))) /\
  query_count (judge (boot (lines ["50"; "70"])))
    < max_queries (judge (boot (lines ["50"; "70"]))) /\
  input (boot (lines ["50"; "70"])) =
    Returns "50"
      (mk_machine (mk_judge (0 + 1) 100)
         (mk_world (mk_istream (lines ["70"]) false false)
                   EmptyString EmptyString)).
Proof.
  assert (Hwf : wf_judge (judge (boot (lines ["50"; "70"])))).
  { unfold wf_judge, CInt.in_range, CInt.INT_MIN, CInt.INT_MAX. simpl. lia. }
  assert (Hlt : query_count (judge (boot (lines ["50"; "70"])))
                < max_queries (judge (boot (lines ["50"; "70"]))))
    by (simpl; lia).
  split; [exact Hwf |]. split; [exact Hlt |].
  exact (input_takes_one_line (boot (lines ["50"; "70"])) "50" (lines ["70"])
           Hwf Hlt eq_refl eq_refl eq_refl).
Defined.

(** ** Lines that are not numbers *)

Lemma scan_digits_stop (s : string) (acc : Z) :
  starts_with_digit s = false -> scan_digits acc s = (acc, s).
Proof.
  destruct s as [|c s]; simpl; intros H; [reflexivity | now rewrite H].
Qed.

(** Without a digit after the white space and the sign, nothing is
    converted and [stoi] throws [invalid_argument]. *)
Lemma stoi_no_digit (line : string) (m : Machine) :
  starts_with_digit (snd (take_sign (skip_space line))) = false ->
  stoi line m = Throws (invalid_argument "stoi") m.
Proof.
  intros H. unfold stoi, strtol.
  destruct (take_sign (skip_space line)) as [neg s2]. simpl in H.
  rewrite (scan_digits_stop s2 0 H), Nat.eqb_refl. reflexivity.
Qed.

(** C5: when the line that [input()] returned makes [stoi] throw (no digit
    to convert, as in "abc", or a value outside [int]), the turn of the loop
    ends the process with status 1 after writing the invalid-input reason
    to [cerr]; no turn of the loop ever lets an exception escape. *)
Theorem malformed_line_is_rejected (n : Z) (m m1 : Machine) (line : string)
  (e : exception)
  (Hread : input m = Returns line m1)
  (Hparse : stoi line m1 = Throws e m1) :
  loop_body n m =
    Exits 1 (mk_world (cin (world m1)) (cout (world m1))
               (cerr (world m1) ++ "Wrong Answer: " ++ invalid_message ++ endl))
  /\ (forall n' x e' x', loop_body n' x <> Throws e' x').
Proof.
  split.
  - unfold loop_body. unfold bind at 1. rewrite Hread.
    apply (guess_rejected n line m1 e Hparse).
  - intros n' x e' x'.
    destruct (loop_body_cases n' x) as [[st [w [-> _]]] | [y [-> _]]];
      discriminate.
Qed.

Lemma malformed_line_is_rejected_witness :
  input (boot (lines ["abc"])) = Returns "abc" after_single_line /\
  stoi "abc" after_single_line
    = Throws (invalid_argument "stoi") after_single_line /\
  loop_body 42 (boot (lines ["abc"])) =
    Exits 1 (mk_world (mk_istream EmptyString false false) EmptyString
               ("Wrong Answer: " ++ invalid_message ++ endl)).
Proof.
  split; [reflexivity |]. split; [reflexivity |].
  exact (proj1 (malformed_line_is_rejected 42 (boot (lines ["abc"]))
                  after_single_line "abc" (invalid_argument "stoi")
                  eq_refl eq_refl)).
Defined.

(** C6: for every reason, [wrong_answer(reason)] appends
    "Wrong Answer: ", the reason and a line feed to [cerr] and leaves [cout]
    (and [cin]) exactly as they were; the rejection inside [input()] does the
    same, and [output] in turn writes to [cout] only. *)
Theorem reject_reason_goes_to_cerr_only :
  (forall reason m, exists w,
     wrong_answer reason m = Exits 1 w /\
     cout w = cout (world m) /\
     cin w = cin (world m) /\
     cerr w = cerr (world m) ++ "Wrong Answer: " ++ reason ++ endl) /\
  (forall m st w, input m = Exits st w ->
     cout w = cout (world m) /\
     cerr w = cerr (world m) ++ "Wrong Answer: " ++ limit_message ++ endl) /\
  (forall message m, exists m',
     output message m = Returns tt m' /\
     cout (world m') = cout (world m) ++ message ++ endl /\
     cerr (world m') = cerr (world m)).
Proof.
  split; [| split].
  - intros reason m. eexists. split; [apply wrong_answer_spec |].
    repeat split.
  - intros m st w H.
    destruct (Z.lt_ge_cases (query_count (judge m)) (max_queries (judge m)))
      as [Hlt | Hge].
    + rewrite (input_under_limit m Hlt) in H. discriminate.
    + rewrite (input_over_limit m Hge) in H. injection H as _ <-.
      split; reflexivity.
  - intros message m. eexists. split; [apply output_spec |].
    split; reflexivity.
Qed.

Lemma reject_reason_goes_to_cerr_only_witness :
  input scenario_B_after_two =
    Exits 1 (reject_world (world scenario_B_after_two) limit_message) /\
  cout (reject_world (world scenario_B_after_two) limit_message)
    = cout (world scenario_B_after_two) /\
  cerr (reject_world (world scenario_B_after_two) limit_message)
    = cerr (world scenario_B_after_two)
      ++ "Wrong Answer: " ++ limit_message ++ endl.
Proof.
  split; [reflexivity |].
  exact (proj1 (proj2 reject_reason_goes_to_cerr_only)
           scenario_B_after_two 1
           (reject_world (world scenario_B_after_two) limit_message) eq_refl).
Defined.

(** C7: in a turn of the example loop (target 42) whose line [stoi] reads
    as [v]: below 42 the turn writes "もっと大きいです" to [cout] and
    returns, above 42 it writes "もっと小さいです" and returns, the counters
    kept as [input()] left them; at 42 it writes "正解です！" and the
    process ends with status 0. *)
Theorem guess_feedback (m m1 : Machine) (line : string) (v : Z)
  (Hread : input m = Returns line m1)
  (Hparse : stoi line m1 = Returns v m1) :
  (v < 42 ->
   loop_body 42 m =
     Returns tt
       (mk_machine (judge m1)
          (mk_world (cin (world m1))
                    (cout (world m1) ++ "もっと大きいです" ++ endl)
                    (cerr (world m1))))) /\
  (42 < v ->
   loop_body 42 m =
     Returns tt
       (mk_machine (judge m1)
          (mk_world (cin (world m1))
                    (cout (world m1) ++ "もっと小さいです" ++ endl)
                    (cerr (world m1))))) /\
  (v = 42 ->
   loop_body 42 m =
     Exits 0 (mk_world (cin (world m1))
                       (cout (world m1) ++ "正解です！" ++ endl)
                       (cerr (world m1)))).
Proof.
  assert (H : loop_body 42 m =
              try_catch_all (judge_guess 42 line)
                            (wrong_answer invalid_message) m1).
  { unfold loop_body. unfold bind at 1. now rewrite Hread. }
  rewrite H, (guess_judged 42 line m1 v Hparse).
  repeat split; intros Hv.
  - destruct (Z.eqb_spec v 42); [lia |].
    destruct (Z.ltb_spec v 42); [reflexivity | lia].
  - destruct (Z.eqb_spec v 42); [lia |].
    destruct (Z.ltb_spec v 42); [lia | reflexivity].
  - destruct (Z.eqb_spec v 42); [reflexivity | lia].
Qed.

Lemma guess_feedback_witness :
  (input (boot (lines ["10"])) = Returns "10" after_single_line /\
   stoi "10" after_single_line = Returns 10 after_single_line /\
   10 < 42 /\
   loop_body 42 (boot (lines ["10"])) =
     Returns tt
       (mk_machine (mk_judge 1 100)
          (mk_world (mk_istream EmptyString false false)
                    ("もっと大きいです" ++ endl) EmptyString))) /\
  (input (boot (lines ["50"])) = Returns "50" after_single_line /\
   stoi "50" after_single_line = Returns 50 after_single_line /\
   42 < 50 /\
   loop_body 42 (boot (lines ["50"])) =
     Returns tt
       (mk_machine (mk_judge 1 100)
          (mk_world (mk_istream EmptyString false false)
                    ("もっと小さいです" ++ endl) EmptyString))) /\
  (input (boot (lines ["42"])) = Returns "42" after_single_line /\
   stoi "42" after_single_line = Returns 42 after_single_line /\
   loop_body 42 (boot (lines ["42"])) =
     Exits 0 (mk_world (mk_istream EmptyString false false)
                       ("正解です！" ++ endl) EmptyString)).
Proof.
  assert (Hlow : 10 < 42) by lia.
  assert (Hhigh : 42 < 50) by lia.
  split; [| split].
  - split; [reflexivity |]. split; [reflexivity |]. split; [exact Hlow |].
    exact (proj1 (guess_feedback (boot (lines ["10"])) after_single_line
                    "10" 10 eq_refl eq_refl) Hlow).
  - split; [reflexivity |]. split; [reflexivity |]. split; [exact Hhigh |].
    exact (proj1 (proj2 (guess_feedback (boot (lines ["50"])) after_single_line
                           "50" 50 eq_refl eq_refl)) Hhigh).
  - split; [reflexivity |]. split; [reflexivity |].
    exact (proj2 (proj2 (guess_feedback (boot (lines ["42"])) after_single_line
                           "42" 42 eq_refl eq_refl)) eq_refl).
Defined.

(** C8: when [cin] has nothing left and [query_count < max_queries],
    [input()] still counts the query and returns the empty string (with
    [failbit] set on [cin], and no other sign of the end of input); the turn
    of the example loop then fails to convert the empty string and ends the
    process with status 1 and the invalid-input reason. *)
Theorem exhausted_input_reads_as_invalid (n : Z) (m : Machine)
  (Hwf : wf_judge (judge m))
  (Hlt : query_count (judge m) < max_queries (judge m))
  (Heof : pending (cin (world m)) = EmptyString) :
  input m =
    Returns EmptyString
      (mk_machine
         (mk_judge (query_count (judge m) + 1) (max_queries (judge m)))
         (mk_world
            (mk_istream EmptyString
                        (eofbit (cin (world m)) || good (cin (world m))) true)
            (cout (world m)) (cerr (world m)))) /\
  loop_body n m =
    Exits 1
      (mk_world
         (mk_istream EmptyString
                     (eofbit (cin (world m)) || good (cin (world m))) true)
         (cout (world m))
         (cerr (world m) ++ "Wrong Answer: " ++ invalid_message ++ endl)).
Proof.
  destruct Hwf as [[Hlo _] [_ Hhi]].
  assert (Hin : input m =
    Returns EmptyString
      (mk_machine
         (mk_judge (query_count (judge m) + 1) (max_queries (judge m)))
         (mk_world
            (mk_istream EmptyString
                        (eofbit (cin (world m)) || good (cin (world m))) true)
            (cout (world m)) (cerr (world m))))).
  { rewrite (input_under_limit m Hlt), (getline_exhausted _ Heof).
    rewrite (incr_below _ _ Hlo Hlt Hhi). reflexivity. }
  split; [exact Hin |].
  unfold loop_body. unfold bind at 1. rewrite Hin.
  rewrite (guess_rejected n EmptyString _ (invalid_argument "stoi") eq_refl).
  reflexivity.
Qed.

Lemma exhausted_input_reads_as_invalid_witness :
  wf_judge (judge (boot EmptyString)) /\
  query_count (judge (boot EmptyString)) < max_queries (judge (boot EmptyString)) /\
  input (boot EmptyString) =
    Returns EmptyString
      (mk_machine (mk_judge (0 + 1) 100)
         (mk_world (mk_istream EmptyString true true) EmptyString EmptyString)) /\
  loop_body 42 (boot EmptyString) =
    Exits 1 (mk_world (mk_istream EmptyString true true) EmptyString
               ("Wrong Answer: " ++ invalid_message ++ endl)).
Proof.
  assert (Hwf : wf_judge (judge (boot EmptyString))).
  { unfold wf_judge, CInt.in_range, CInt.INT_MIN, CInt.INT_MAX. simpl. lia. }
  assert (Hlt : query_count (judge (boot EmptyString))
                < max_queries (judge (boot EmptyString))) by (simpl; lia).
  split; [exact Hwf |]. split; [exact Hlt |].
  exact (exhausted_input_reads_as_invalid 42 (boot EmptyString) Hwf Hlt eq_refl).
Defined.

(** C9: [set_max_queries(max)] stores any [max], positive or not and
    whatever [query_count] is, and changes nothing else; if [query_count]
    is then at least [max], the next [input()] ends the process with status
    1 and the query-limit reason, with [cin] as it was. *)
Theorem set_max_queries_is_unchecked (max : Z) (m : Machine) :
  set_max_queries max m =
    Returns tt (mk_machine (mk_judge (query_count (judge m)) max) (world m)) /\
  (max <= query_count (judge m) ->
   (set_max_queries max ;; input) m =
     Exits 1 (mk_world (cin (world m)) (cout (world m))
                (cerr (world m) ++ "Wrong Answer: " ++ limit_message ++ endl))).
Proof.
  split; [reflexivity |].
  intros H. unfold bind at 1. unfold set_max_queries.
  rewrite input_over_limit; [reflexivity | exact H].
Qed.

Lemma set_max_queries_is_unchecked_witness :
  -5 <= query_count (judge (boot (lines ["10"]))) /\
  (set_max_queries (-5) ;; input) (boot (lines ["10"])) =
    Exits 1 (mk_world (mk_istream (lines ["10"]) false false) EmptyString
               ("Wrong Answer: " ++ limit_message ++ endl)).
Proof.
  assert (H : -5 <= query_count (judge (boot (lines ["10"])))) by (simpl; lia).
  split; [exact H |].
  exact (proj2 (set_max_queries_is_unchecked (-5) (boot (lines ["10"]))) H).
Defined.

(** C10: a line made of optional white space, an optional sign, a
    non-empty run of digits whose value fits an [int], and then any tail
    that does not go on with a digit, is read by [stoi] as that value; the
    turn of the loop compares it with the target and does not reject the
    line as invalid input.  In particular "42xyz" against the target 42
    ends the process with status 0. *)
Theorem integer_prefix_is_accepted :
  (forall (ws ds rest : string) (sg : sign) (n : Z) (m m1 : Machine),
     all_chars isspace ws = true ->
     all_chars isdigit ds = true ->
     ds <> EmptyString ->
     starts_with_digit rest = false ->
     CInt.in_range (signed sg (decimal ds)) ->
     input m = Returns (ws ++ sign_text sg ++ ds ++ rest) m1 ->
     stoi (ws ++ sign_text sg ++ ds ++ rest) m1
       = Returns (signed sg (decimal ds)) m1 /\
     loop_body n m =
       (if signed sg (decimal ds) =? n
        then Exits 0 (mk_world (cin (world m1))
                               (cout (world m1) ++ correct_message ++ endl)
                               (cerr (world m1)))
        else Returns tt
               (mk_machine (judge m1)
                  (mk_world (cin (world m1))
                     (cout (world m1)
                      ++ (if signed sg (decimal ds) <? n
                          then bigger_message else smaller_message) ++ endl)
                     (cerr (world m1))))) /\
     loop_body n m <>
       Exits 1 (mk_world (cin (world m1)) (cout (world m1))
                  (cerr (world m1)
                   ++ "Wrong Answer: " ++ invalid_message ++ endl))) /\
  (forall fuel,
     main (S fuel) (boot (lines ["42xyz"])) =
       Exits 0 (mk_world (mk_istream EmptyString false false)
                         (greeting ++ endl ++ correct_message ++ endl)
                         EmptyString)).
Proof.
  split.
  - intros ws ds rest sg n m m1 Hws Hds Hne Hrest Hrange Hread.
    pose proof (stoi_integer_prefix ws ds rest sg Hws Hds Hne Hrest m1 Hrange)
      as Hstoi.
    assert (Hbody : loop_body n m =
                    try_catch_all
                      (judge_guess n (ws ++ sign_text sg ++ ds ++ rest))
                      (wrong_answer invalid_message) m1).
    { unfold loop_body. unfold bind at 1. now rewrite Hread. }
    rewrite Hbody, (guess_judged n _ m1 _ Hstoi).
    split; [exact Hstoi |].
    destruct (signed sg (decimal ds) =? n).
    + split; [reflexivity | discriminate].
    + destruct (signed sg (decimal ds) <? n);
        (split; [reflexivity | discriminate]).
  - intros fuel. reflexivity.
Qed.

Lemma integer_prefix_is_accepted_witness :
  all_chars isspace " " = true /\
  all_chars isdigit "42" = true /\
  "42" <> EmptyString /\
  starts_with_digit "xyz" = false /\
  CInt.in_range (signed Plus (decimal "42")) /\
  input (boot (lines [" +42xyz"])) = Returns " +42xyz" after_single_line /\
  stoi " +42xyz" after_single_line = Returns 42 after_single_line /\
  loop_body 42 (boot (lines [" +42xyz"])) =
    Exits 0 (mk_world (mk_istream EmptyString false false)
                      (correct_message ++ endl) EmptyString).
Proof.
  assert (Hne : "42" <> EmptyString) by discriminate.
  assert (Hrange : CInt.in_range (signed Plus (decimal "42"))).
  { unfold CInt.in_range, CInt.INT_MIN, CInt.INT_MAX. simpl. lia. }
  pose proof (proj1 integer_prefix_is_accepted " " "42" "xyz" Plus 42
                (boot (lines [" +42xyz"])) after_single_line
                eq_refl eq_refl Hne eq_refl Hrange eq_refl) as H.
  split; [reflexivity |]. split; [reflexivity |]. split; [exact Hne |].
  split; [reflexivity |]. split; [exact Hrange |]. split; [reflexivity |].
  split; [exact (proj1 H) | exact (proj1 (proj2 H))].
Defined.

(** ** The scenarios of the specification, run through [main] *)

(** Scenario A: "50", "70", "60" against 42 with the default limit: three
    times "smaller", and the session is still running with three queries
    used. *)
Example scenario_A :
  main 3 (boot (lines ["50"; "70"; "60"])) =
    Returns tt
      (mk_machine (mk_judge 3 100)
         (mk_world (mk_istream EmptyString false false)
            (lines [greeting; smaller_message; smaller_message; smaller_message])
            EmptyString)).
Proof. reflexivity. Qed.

(** Scenario C: "abc" is rejected as invalid input, status 1, and [cout]
    holds the greeting only. *)
Example scenario_C :
  forall fuel,
    main (S fuel) (boot (lines ["abc"])) =
      Exits 1 (mk_world (mk_istream EmptyString false false)
                        (lines [greeting])
                        ("Wrong Answer: " ++ invalid_message ++ endl)).
Proof. intros fuel. reflexivity. Qed.

(** Scenario D: the target itself is answered by the success message and
    status 0. *)
Example scenario_D :
  forall fuel,
    main (S fuel) (boot (lines ["42"])) =
      Exits 0 (mk_world (mk_istream EmptyString false false)
                        (lines [greeting; correct_message]) EmptyString).
Proof. intros fuel. reflexivity. Qed.

(** A closed input: after the lines that were sent, the next read finds
    the end of the stream and the session is rejected as invalid input. *)
Example scenario_A_then_closed :
  forall fuel,
    main (4 + fuel) (boot (lines ["50"; "70"; "60"])) =
      Exits 1 (mk_world (mk_istream EmptyString true true)
                 (lines [greeting; smaller_message; smaller_message;
                         smaller_message])
                 ("Wrong Answer: " ++ invalid_message ++ endl)).
Proof. intros fuel. reflexivity. Qed.

(** A value with an integer prefix outside [int] is rejected. *)
Example huge_number_rejected :
  forall fuel,
    main (S fuel) (boot (lines ["99999999999"])) =
      Exits 1 (mk_world (mk_istream EmptyString false false)
                        (lines [greeting])
                        ("Wrong Answer: " ++ invalid_message ++ endl)).
Proof. intros fuel. reflexivity. Qed.

(** * Further properties of the code *)

(** ** The guessing loop on a run of wrong guesses *)

Lemma sapp_empty_r (a : string) : (a ++ EmptyString)%string = a.
Proof.
  induction a as [|x a IH]; simpl; [reflexivity | now rewrite IH].
Qed.

Lemma lines_app (a b : list string) :
  lines (a ++ b) = (lines a ++ lines b)%string.
Proof.
  induction a as [|x a IH]; [reflexivity |].
  cbn [List.app lines fold_right]. fold (lines (a ++ b)). fold (lines a).
  now rewrite IH, !sapp_assoc.
Qed.

Lemma good_stream (ist : istream) :
  good ist = true -> ist = mk_istream (pending ist) false false.
Proof.
  destruct ist as [p [|] [|]]; simpl; intros H; try discriminate. reflexivity.
Qed.

(** A turn on a wrong guess: the line is taken, the query counted, the
    feedback written, and the loop goes on. *)
Lemma loop_body_wrong_guess (n : Z) (m : Machine) (g : string * Z) (rest : string) :
  CInt.INT_MIN <= query_count (judge m) ->
  max_queries (judge m) <= CInt.INT_MAX ->
  query_count (judge m) < max_queries (judge m) ->
  good (cin (world m)) = true ->
  pending (cin (world m)) = fst g ++ endl ++ rest ->
  wrong_guess n g ->
  loop_body n m =
    Returns tt
      (mk_machine
         (mk_judge (query_count (judge m) + 1) (max_queries (judge m)))
         (mk_world (mk_istream rest false false)
                   (cout (world m) ++ feedback n (snd g) ++ endl)
                   (cerr (world m)))).
Proof.
  intros Hlo Hhi Hlt Hgood Hpend [Hlf [Hne Hstoi]].
  rewrite (loop_body_under_limit n m Hlt). unfold after_read.
  rewrite (getline_terminated _ (fst g) rest Hgood Hpend Hlf).
  rewrite (incr_below _ _ Hlo Hlt Hhi). cbn [fst snd].
  rewrite (guess_judged n (fst g) _ (snd g) (Hstoi _)).
  destruct (Z.eqb_spec (snd g) n) as [E|_]; [contradiction |].
  unfold feedback, emit_world. cbn [world judge cin cout cerr].
  destruct (snd g <? n); reflexivity.
Qed.

Lemma main_loop_wrong_guesses (n : Z) (gs : list (string * Z)) :
  forall (m : Machine) (rest : string) (fuel : nat),
    Forall (wrong_guess n) gs ->
    CInt.INT_MIN <= query_count (judge m) ->
    max_queries (judge m) <= CInt.INT_MAX ->
    query_count (judge m) + Z.of_nat (length gs) <= max_queries (judge m) ->
    good (cin (world m)) = true ->
    pending (cin (world m)) = lines (map fst gs) ++ rest ->
    main_loop (length gs + fuel) n m =
      main_loop fuel n
        (mk_machine
           (mk_judge (query_count (judge m) + Z.of_nat (length gs))
                     (max_queries (judge m)))
           (mk_world (mk_istream rest false false)
                     (cout (world m) ++ lines (map (fun g => feedback n (snd g)) gs))
                     (cerr (world m)))).
Proof.
  induction gs as [|g gs IH]; intros m rest fuel Hgs Hlo Hhi Hle Hgood Hpend.
  - cbn [length map lines fold_right Nat.add] in *. fold (lines []) in *.
    change (Z.of_nat 0) with 0. rewrite Z.add_0_r, sapp_empty_r.
    cbn [append] in Hpend. rewrite <- Hpend, <- (good_stream _ Hgood).
    destruct m as [[c mx] [i o e]]. reflexivity.
  - inversion Hgs as [|g' gs' Hg Hgs']; subst.
    cbn [length] in Hle. rewrite Nat2Z.inj_succ in Hle.
    cbn [map lines fold_right] in Hpend. fold (lines (map fst gs)) in Hpend.
    rewrite !sapp_assoc in Hpend.
    change (length (g :: gs) + fuel)%nat with (S (length gs + fuel)).
    cbn [main_loop]. unfold bind at 1.
    rewrite (loop_body_wrong_guess n m g (lines (map fst gs) ++ rest));
      try assumption; [| lia].
    rewrite (IH _ rest fuel); cbn [judge world cin cout cerr query_count max_queries
                     pending good eofbit failbit negb andb];
      try assumption; try reflexivity; try lia.
    cbn [length map lines fold_right].
    fold (lines (map (fun g0 => feedback n (snd g0)) gs)).
    rewrite Nat2Z.inj_succ, !sapp_assoc.
    replace (query_count (judge m) + 1 + Z.of_nat (length gs))
      with (query_count (judge m) + Z.succ (Z.of_nat (length gs))) by lia.
    reflexivity.
Qed.

Lemma boot_after_wrong_guesses (gs : list (string * Z)) (rest : string) (fuel : nat) :
  Forall (wrong_guess 42) gs ->
  (length gs <= 100)%nat ->
  main (length gs + fuel) (boot (lines (map fst gs) ++ rest)) =
    main_loop fuel 42
      (mk_machine
         (mk_judge (Z.of_nat (length gs)) 100)
         (mk_world (mk_istream rest false false)
                   (lines (greeting :: map (fun g => feedback 42 (snd g)) gs))
                   EmptyString)).
Proof.
  intros Hgs Hlen. rewrite main_start.
  rewrite (main_loop_wrong_guesses 42 gs _ rest fuel Hgs);
    unfold JudgeInterface_new, emit_world, boot;
    cbn [judge world cin cout cerr query_count max_queries pending good
         eofbit failbit negb andb];
    try reflexivity; unfold CInt.INT_MIN, CInt.INT_MAX; lia.
Qed.

(** X1: when the first 100 lines are all guesses other than 42, [main]
    answers each of them with its feedback line and then ends with status 1
    and the query-limit reason; whatever follows the 100th line is left
    unread in [cin]. *)
Theorem main_rejects_after_100_wrong_guesses
  (gs : list (string * Z)) (rest : string) (extra : nat)
  (Hgs : Forall (wrong_guess 42) gs)
  (Hlen : length gs = 100%nat) :
  main (101 + extra) (boot (lines (map fst gs) ++ rest)) =
    Exits 1
      (mk_world (mk_istream rest false false)
                (lines (greeting :: map (fun g => feedback 42 (snd g)) gs))
                ("Wrong Answer: " ++ limit_message ++ endl)).
Proof.
  replace (101 + extra)%nat with (length gs + S extra)%nat by lia.
  rewrite (boot_after_wrong_guesses gs rest (S extra) Hgs) by lia.
  cbn [main_loop]. unfold bind.
  rewrite loop_body_over_limit;
    cbn [judge query_count max_queries]; [reflexivity | lia].
Qed.

(** X2: when fewer than 100 wrong guesses are followed by a line that
    reads as 42, [main] answers the wrong guesses, writes the success
    message and ends with status 0, with nothing on [cerr]; the rest of
    [cin] is left unread. *)
Theorem main_accepts_target_after_wrong_guesses
  (gs : list (string * Z)) (line rest : string) (extra : nat)
  (Hgs : Forall (wrong_guess 42) gs)
  (Hlen : (length gs < 100)%nat)
  (Hlf : has_char LF line = false)
  (Htarget : forall m, stoi line m = Returns 42 m) :
  main (S (length gs) + extra)
       (boot (lines (map fst gs) ++ line ++ endl ++ rest)) =
    Exits 0
      (mk_world (mk_istream rest false false)
                (lines (greeting :: map (fun g => feedback 42 (snd g)) gs
                        ++ [correct_message]))
                EmptyString).
Proof.
  replace (S (length gs) + extra)%nat with (length gs + S extra)%nat by lia.
  rewrite (boot_after_wrong_guesses gs _ (S extra) Hgs) by lia.
  cbn [main_loop]. unfold bind.
  rewrite loop_body_under_limit by (cbn [judge query_count max_queries]; lia).
  unfold after_read. cbn [judge world cin cout cerr query_count max_queries].
  rewrite (getline_terminated (mk_istream (line ++ endl ++ rest) false false)
             line rest eq_refl eq_refl Hlf). cbn [fst snd].
  rewrite (guess_judged 42 line _ 42 (Htarget _)).
  cbn [Z.eqb Pos.eqb]. unfold emit_world. cbn [world cin cout cerr].
  change (greeting :: map (fun g => feedback 42 (snd g)) gs ++ [correct_message])
    with ((greeting :: map (fun g => feedback 42 (snd g)) gs) ++ [correct_message])%list.
  rewrite lines_app. reflexivity.
Qed.

(** X3: when fewer than 100 wrong guesses are followed by a line that
    [stoi] cannot convert, [main] answers the wrong guesses and ends with
    status 1 and the invalid-input reason. *)
Theorem main_rejects_invalid_line_after_wrong_guesses
  (gs : list (string * Z)) (line rest : string) (extra : nat)
  (Hgs : Forall (wrong_guess 42) gs)
  (Hlen : (length gs < 100)%nat)
  (Hlf : has_char LF line = false)
  (Hbad : forall m, exists e, stoi line m = Throws e m) :
  main (S (length gs) + extra)
       (boot (lines (map fst gs) ++ line ++ endl ++ rest)) =
    Exits 1
      (mk_world (mk_istream rest false false)
                (lines (greeting :: map (fun g => feedback 42 (snd g)) gs))
                ("Wrong Answer: " ++ invalid_message ++ endl)).
Proof.
  replace (S (length gs) + extra)%nat with (length gs + S extra)%nat by lia.
  rewrite (boot_after_wrong_guesses gs _ (S extra) Hgs) by lia.
  cbn [main_loop]. unfold bind.
  rewrite loop_body_under_limit by (cbn [judge query_count max_queries]; lia).
  unfold after_read. cbn [judge world cin cout cerr query_count max_queries].
  rewrite (getline_terminated (mk_istream (line ++ endl ++ rest) false false)
             line rest eq_refl eq_refl Hlf). cbn [fst snd].
  match goal with
  | |- context [try_catch_all _ _ ?x] => destruct (Hbad x) as [e He]
  end.
  rewrite (guess_rejected 42 line _ e He). reflexivity.
Qed.

(** X4: when the solution closes its output after fewer than 100 wrong
    guesses, [main] does not wait: the next read finds the end of the
    stream and the process ends with status 1 and the invalid-input
    reason. *)
Theorem main_rejects_closed_input_after_wrong_guesses
  (gs : list (string * Z)) (extra : nat)
  (Hgs : Forall (wrong_guess 42) gs)
  (Hlen : (length gs < 100)%nat) :
  main (S (length gs) + extra) (boot (lines (map fst gs))) =
    Exits 1
      (mk_world (mk_istream EmptyString true true)
                (lines (greeting :: map (fun g => feedback 42 (snd g)) gs))
                ("Wrong Answer: " ++ invalid_message ++ endl)).
Proof.
  replace (S (length gs) + extra)%nat with (length gs + S extra)%nat by lia.
  rewrite <- (sapp_empty_r (lines (map fst gs))).
  rewrite (boot_after_wrong_guesses gs EmptyString (S extra) Hgs) by lia.
  cbn [main_loop]. unfold bind.
  rewrite loop_body_under_limit by (cbn [judge query_count max_queries]; lia).
  unfold after_read. cbn [judge world cin cout cerr query_count max_queries].
  rewrite (getline_exhausted (mk_istream EmptyString false false) eq_refl).
  cbn [fst snd eofbit good failbit negb andb orb].
  rewrite (guess_rejected 42 EmptyString _ (invalid_argument "stoi") eq_refl).
  reflexivity.
Qed.

Ltac wrong_guesses :=
  repeat (apply Forall_cons;
          [split; [reflexivity | split; [discriminate | intros; reflexivity]] |]);
  apply Forall_nil.

Lemma main_rejects_after_100_wrong_guesses_witness :
  Forall (wrong_guess 42) (repeat ("50", 50) 100) /\
  length (repeat ("50", 50) 100) = 100%nat /\
  main (101 + 0)
       (boot (lines (map fst (repeat ("50", 50) 100)) ++ "42" ++ endl)) =
    Exits 1
      (mk_world (mk_istream ("42" ++ endl) false false)
         (lines (greeting
                 :: map (fun g => feedback 42 (snd g)) (repeat ("50", 50) 100)))
         ("Wrong Answer: " ++ limit_message ++ endl)).
Proof.
  assert (Hgs : Forall (wrong_guess 42) (repeat ("50", 50) 100))
    by (cbn [repeat]; wrong_guesses).
  split; [exact Hgs |]. split; [reflexivity |].
  exact (main_rejects_after_100_wrong_guesses
           (repeat ("50", 50) 100) ("42" ++ endl) 0 Hgs eq_refl).
Defined.

Lemma main_accepts_target_after_wrong_guesses_witness :
  Forall (wrong_guess 42) [("50", 50); ("10", 10)] /\
  (length [("50", 50); ("10", 10)] < 100)%nat /\
  has_char LF " 42" = false /\
  (forall m, stoi " 42" m = Returns 42 m) /\
  main (S (length [("50", 50); ("10", 10)]) + 0)
       (boot (lines (map fst [("50", 50); ("10", 10)])
              ++ " 42" ++ endl ++ "7" ++ endl)) =
    Exits 0
      (mk_world (mk_istream ("7" ++ endl) false false)
         (lines [greeting; smaller_message; bigger_message; correct_message])
         EmptyString).
Proof.
  assert (Hgs : Forall (wrong_guess 42) [("50", 50); ("10", 10)])
    by wrong_guesses.
  assert (Hlen : (length [("50", 50); ("10", 10)] < 100)%nat) by (simpl; lia).
  assert (Ht : forall m, stoi " 42" m = Returns 42 m) by (intros; reflexivity).
  split; [exact Hgs |]. split; [exact Hlen |]. split; [reflexivity |].
  split; [exact Ht |].
  exact (main_accepts_target_after_wrong_guesses
           [("50", 50); ("10", 10)] " 42" ("7" ++ endl) 0 Hgs Hlen eq_refl Ht).
Defined.

Lemma main_rejects_invalid_line_after_wrong_guesses_witness :
  Forall (wrong_guess 42) [("50", 50)] /\
  (length [("50", 50)] < 100)%nat /\
  has_char LF "abc" = false /\
  (forall m, exists e, stoi "abc" m = Throws e m) /\
  main (S (length [("50", 50)]) + 0)
       (boot (lines (map fst [("50", 50)]) ++ "abc" ++ endl ++ "42" ++ endl)) =
    Exits 1
      (mk_world (mk_istream ("42" ++ endl) false false)
         (lines [greeting; smaller_message])
         ("Wrong Answer: " ++ invalid_message ++ endl)).
Proof.
  assert (Hgs : Forall (wrong_guess 42) [("50", 50)]) by wrong_guesses.
  assert (Hlen : (length [("50", 50)] < 100)%nat) by (simpl; lia).
  assert (Hbad : forall m, exists e, stoi "abc" m = Throws e m)
    by (intros m; eexists; reflexivity).
  split; [exact Hgs |]. split; [exact Hlen |]. split; [reflexivity |].
  split; [exact Hbad |].
  exact (main_rejects_invalid_line_after_wrong_guesses
           [("50", 50)] "abc" ("42" ++ endl) 0 Hgs Hlen eq_refl Hbad).
Defined.

Lemma main_rejects_closed_input_after_wrong_guesses_witness :
  Forall (wrong_guess 42) [("50", 50); ("70", 70); ("60", 60)] /\
  (length [("50", 50); ("70", 70); ("60", 60)] < 100)%nat /\
  main (S (length [("50", 50); ("70", 70); ("60", 60)]) + 0)
       (boot (lines (map fst [("50", 50); ("70", 70); ("60", 60)]))) =
    Exits 1
      (mk_world (mk_istream EmptyString true true)
         (lines [greeting; smaller_message; smaller_message; smaller_message])
         ("Wrong Answer: " ++ invalid_message ++ endl)).
Proof.
  assert (Hgs : Forall (wrong_guess 42) [("50", 50); ("70", 70); ("60", 60)])
    by wrong_guesses.
  assert (Hlen : (length [("50", 50); ("70", 70); ("60", 60)] < 100)%nat)
    by (simpl; lia).
  split; [exact Hgs |]. split; [exact Hlen |].
  exact (main_rejects_closed_input_after_wrong_guesses
           [("50", 50); ("70", 70); ("60", 60)] 0 Hgs Hlen).
Defined.

(** ** What [main] writes, for every input *)

(** The four ways a turn of the loop can go. *)
Lemma loop_body_shape (n : Z) (m : Machine) :
  (max_queries (judge m) <= query_count (judge m) /\
   loop_body n m = Exits 1 (reject_world (world m) limit_message)) \/
  (query_count (judge m) < max_queries (judge m) /\
   (loop_body n m =
      Exits 0 (emit_world (world (after_read m)) correct_message) \/
    (exists f, is_feedback f /\
       loop_body n m =
         Returns tt (mk_machine (judge (after_read m))
                                (emit_world (world (after_read m)) f))) \/
    loop_body n m =
      Exits 1 (reject_world (world (after_read m)) invalid_message))).
Proof.
  destruct (Z.lt_ge_cases (query_count (judge m)) (max_queries (judge m)))
    as [Hlt | Hge].
  - right. split; [exact Hlt |].
    rewrite (loop_body_under_limit n m Hlt).
    set (line := snd (getline (cin (world m)) EmptyString)).
    destruct (stoi_cases line (after_read m)) as [[v [Hv _]] | [e He]].
    + rewrite (guess_judged n line _ v Hv).
      destruct (v =? n); [left; reflexivity |].
      right; left.
      destruct (v <? n); eexists; (split; [| reflexivity]);
        [left | right]; reflexivity.
    + right; right. apply (guess_rejected n line _ e He).
  - left. split; [exact Hge | apply (loop_body_over_limit n m Hge)].
Qed.

Lemma main_loop_exit_shape (n : Z) (fuel : nat) :
  forall (m : Machine) (st : Z) (w : World),
    CInt.INT_MIN <= query_count (judge m) ->
    max_queries (judge m) <= CInt.INT_MAX ->
    main_loop fuel n m = Exits st w ->
    exists fs : list string,
      Forall is_feedback fs /\
      Z.of_nat (length fs)
        <= Z.max 0 (max_queries (judge m) - query_count (judge m)) /\
      ((st = 0 /\
        query_count (judge m) + Z.of_nat (length fs) < max_queries (judge m) /\
        cout w = cout (world m) ++ lines (fs ++ [correct_message]) /\
        cerr w = cerr (world m)) \/
       (st = 1 /\
        cout w = cout (world m) ++ lines fs /\
        (cerr w = cerr (world m) ++ "Wrong Answer: " ++ limit_message ++ endl \/
         cerr w = cerr (world m) ++ "Wrong Answer: " ++ invalid_message ++ endl))).
Proof.
  induction fuel as [|fuel IH]; intros m st w Hlo Hhi Hrun;
    [discriminate Hrun |].
  cbn [main_loop] in Hrun. unfold bind in Hrun.
  destruct (loop_body_shape n m)
    as [[Hge Hb] | [Hlt [Hb | [[f [Hf Hb]] | Hb]]]];
    rewrite Hb in Hrun.
  - injection Hrun as <- <-. exists []. split; [constructor |].
    split; [cbn [length]; lia |]. right.
    split; [reflexivity |]. cbn [reject_world cout cerr lines fold_right].
    rewrite sapp_empty_r. split; [reflexivity | left; reflexivity].
  - injection Hrun as <- <-. exists []. split; [constructor |].
    split; [cbn [length]; lia |]. left.
    split; [reflexivity |]. split; [cbn [length]; lia |].
    split; reflexivity.
  - apply IH in Hrun;
      cbn [judge world after_read query_count max_queries] in *;
      try rewrite (incr_below _ _ Hlo Hlt Hhi) in *; try lia.
    destruct Hrun as [fs [Hfs [Hlen Hcases]]].
    exists (f :: fs). split; [constructor; assumption |].
    cbn [length]. rewrite Nat2Z.inj_succ.
    split; [lia |].
    cbn [emit_world cout cerr] in Hcases.
    destruct Hcases as [[-> [Hb1 [Hc He]]] | [-> [Hc He]]]; [left | right].
    + split; [reflexivity |]. split; [lia |]. split; [| exact He].
      rewrite Hc. cbn [List.app lines fold_right].
      fold (lines (fs ++ [correct_message])). now rewrite !sapp_assoc.
    + split; [reflexivity |]. split; [| exact He].
      rewrite Hc. cbn [lines fold_right]. fold (lines fs).
      now rewrite !sapp_assoc.
  - injection Hrun as <- <-. exists []. split; [constructor |].
    split; [cbn [length]; lia |]. right.
    split; [reflexivity |].
    cbn [reject_world after_read world cout cerr lines fold_right].
    rewrite sapp_empty_r. split; [reflexivity | right; reflexivity].
Qed.

(** X5: whatever the solution sends, everything [main] has written to
    [cout] when the process ends is the greeting, then at most 100 feedback
    lines, each "bigger" or "smaller", and then the success message exactly
    when the status is 0 (in which case there are fewer than 100 feedback
    lines). *)
Theorem main_cout_is_greeting_and_feedback
  (fuel : nat) (m : Machine) (st : Z) (w : World)
  (Hrun : main fuel m = Exits st w) :
  exists fs : list string,
    Forall is_feedback fs /\
    (length fs <= 100)%nat /\
    (st = 0 -> (length fs < 100)%nat) /\
    cout w =
      cout (world m)
      ++ lines (greeting :: fs ++ (if st =? 0 then [correct_message] else [])).
Proof.
  rewrite main_start in Hrun.
  apply main_loop_exit_shape in Hrun;
    unfold JudgeInterface_new in *;
    cbn [judge world query_count max_queries] in *;
    try (unfold CInt.INT_MIN, CInt.INT_MAX; lia).
  destruct Hrun as [fs [Hfs [Hlen Hcases]]].
  exists fs. split; [exact Hfs |]. split; [lia |].
  cbn [emit_world cout] in Hcases.
  destruct Hcases as [[-> [Hb [Hc _]]] | [-> [Hc _]]].
  - split; [lia |]. rewrite Hc. cbn [Z.eqb lines fold_right].
    fold (lines (fs ++ [correct_message])). now rewrite !sapp_assoc.
  - split; [discriminate |]. rewrite Hc. cbn [Z.eqb Pos.eqb lines fold_right].
    rewrite app_nil_r. fold (lines fs). now rewrite !sapp_assoc.
Qed.

(** X6: whatever the solution sends, when [main] ends with status 0 it
    has written nothing to [cerr], and when it ends with status 1 it has
    written exactly one line there: "Wrong Answer: " followed by the
    query-limit reason or by the invalid-input reason. *)
Theorem main_cerr_is_one_verdict_line
  (fuel : nat) (m : Machine) (st : Z) (w : World)
  (Hrun : main fuel m = Exits st w) :
  (st = 0 /\ cerr w = cerr (world m)) \/
  (st = 1 /\
   (cerr w = cerr (world m) ++ "Wrong Answer: " ++ limit_message ++ endl \/
    cerr w = cerr (world m) ++ "Wrong Answer: " ++ invalid_message ++ endl)).
Proof.
  rewrite main_start in Hrun.
  apply main_loop_exit_shape in Hrun;
    unfold JudgeInterface_new in *;
    cbn [judge world query_count max_queries] in *;
    try (unfold CInt.INT_MIN, CInt.INT_MAX; lia).
  destruct Hrun as [fs [_ [_ Hcases]]].
  cbn [emit_world cerr] in Hcases.
  destruct Hcases as [[-> [_ [_ He]]] | [-> [_ He]]].
  - left. split; [reflexivity | exact He].
  - right. split; [reflexivity | exact He].
Qed.

Lemma main_cout_is_greeting_and_feedback_witness :
  main 2 (boot (lines ["50"; "42"])) =
    Exits 0 (mk_world (mk_istream EmptyString false false)
                      (lines [greeting; smaller_message; correct_message])
                      EmptyString) /\
  exists fs : list string,
    Forall is_feedback fs /\
    (length fs <= 100)%nat /\
    (0 = 0 -> (length fs < 100)%nat) /\
    lines [greeting; smaller_message; correct_message] =
      EmptyString ++ lines (greeting :: fs ++ [correct_message]).
Proof.
  split; [reflexivity |].
  exact (main_cout_is_greeting_and_feedback 2 (boot (lines ["50"; "42"])) 0
           (mk_world (mk_istream EmptyString false false)
                     (lines [greeting; smaller_message; correct_message])
                     EmptyString)
           eq_refl).
Defined.

Lemma main_cerr_is_one_verdict_line_witness :
  main 2 (boot (lines ["50"; "x"])) =
    Exits 1 (mk_world (mk_istream EmptyString false false)
                      (lines [greeting; smaller_message])
                      ("Wrong Answer: " ++ invalid_message ++ endl)) /\
  ((1 = 0 /\ "Wrong Answer: " ++ invalid_message ++ endl = EmptyString) \/
   (1 = 1 /\
    ("Wrong Answer: " ++ invalid_message ++ endl
       = EmptyString ++ "Wrong Answer: " ++ limit_message ++ endl \/
     "Wrong Answer: " ++ invalid_message ++ endl
       = EmptyString ++ "Wrong Answer: " ++ invalid_message ++ endl))).
Proof.
  split; [reflexivity |].
  exact (main_cerr_is_one_verdict_line 2 (boot (lines ["50"; "x"])) 1
           (mk_world (mk_istream EmptyString false false)
                     (lines [greeting; smaller_message])
                     ("Wrong Answer: " ++ invalid_message ++ endl))
           eq_refl).
Defined.

(** ** What [input()] takes from [cin] *)

Lemma read_line_split (s : string) :
  s = fst (fst (read_line s))
      ++ (if snd (read_line s) then endl else EmptyString)
      ++ snd (fst (read_line s)) /\
  has_char LF (fst (fst (read_line s))) = false /\
  (snd (read_line s) = false -> snd (fst (read_line s)) = EmptyString).
Proof.
  induction s as [|c s IH]; [repeat split |].
  cbn [read_line]. destruct (Ascii.eqb_spec c LF) as [-> | Hc].
  - repeat split. discriminate.
  - destruct (read_line s) as [[l r] d]. cbn [fst snd] in *.
    destruct IH as [Hs [Hl Hr]].
    split; [cbn [append]; now rewrite <- Hs |].
    split; [| exact Hr].
    cbn [has_char]. rewrite Hl. apply Ascii.eqb_neq in Hc. now rewrite Hc.
Qed.

(** X7: an accepted call of [input()] on a readable [cin] loses and
    reorders nothing: the bytes that were pending are the returned line,
    then a line feed unless the data ended first ([eofbit]), then the bytes
    still pending.  The returned line holds no line feed, nothing is left
    once the end was reached, and [failbit] is set exactly when [cin] was
    already empty. *)
Theorem input_splits_pending (m : Machine)
  (Hlt : query_count (judge m) < max_queries (judge m))
  (Hgood : good (cin (world m)) = true) :
  exists (line : string) (m' : Machine),
    input m = Returns line m' /\
    pending (cin (world m)) =
      line ++ (if eofbit (cin (world m')) then EmptyString else endl)
           ++ pending (cin (world m')) /\
    has_char LF line = false /\
    (eofbit (cin (world m')) = true -> pending (cin (world m')) = EmptyString) /\
    (failbit (cin (world m')) = true <-> pending (cin (world m)) = EmptyString).
Proof.
  do 2 eexists. split; [apply (input_under_limit m Hlt) |].
  unfold getline. rewrite Hgood.
  pose proof (read_line_split (pending (cin (world m)))) as Hsplit.
  destruct (read_line (pending (cin (world m)))) as [[l r] d] eqn:Hrl.
  cbn [fst snd world cin pending eofbit failbit] in *.
  destruct Hsplit as [Hs [Hl Hr]].
  split; [destruct d; exact Hs |]. split; [exact Hl |].
  split; [destruct d; [discriminate | intros _; now apply Hr] |].
  split.
  - intros Hf. destruct d; [discriminate |].
    destruct (String.eqb_spec l EmptyString) as [-> |]; [| discriminate].
    rewrite Hs, (Hr eq_refl). reflexivity.
  - intros He. rewrite He in Hrl. cbn [read_line] in Hrl.
    injection Hrl as <- <- <-. reflexivity.
Qed.

Lemma input_splits_pending_witness :
  query_count (judge (boot ("10" ++ endl ++ "20")))
    < max_queries (judge (boot ("10" ++ endl ++ "20"))) /\
  good (cin (world (boot ("10" ++ endl ++ "20")))) = true /\
  exists (line : string) (m' : Machine),
    input (boot ("10" ++ endl ++ "20")) = Returns line m' /\
    pending (cin (world (boot ("10" ++ endl ++ "20")))) =
      line ++ (if eofbit (cin (world m')) then EmptyString else endl)
           ++ pending (cin (world m')) /\
    has_char LF line = false /\
    (eofbit (cin (world m')) = true -> pending (cin (world m')) = EmptyString) /\
    (failbit (cin (world m')) = true
     <-> pending (cin (world (boot ("10" ++ endl ++ "20")))) = EmptyString).
Proof.
  assert (Hlt : query_count (judge (boot ("10" ++ endl ++ "20")))
                < max_queries (judge (boot ("10" ++ endl ++ "20"))))
    by (simpl; lia).
  split; [exact Hlt |]. split; [reflexivity |].
  exact (input_splits_pending (boot ("10" ++ endl ++ "20")) Hlt eq_refl).
Defined.

(** X8: the last line need not end with a line feed: when fewer than 100
    wrong guesses are followed by a final unterminated line that reads as
    42, [main] still ends with status 0; [cin] is left empty with [eofbit]
    set and [failbit] clear. *)
Theorem main_accepts_unterminated_target
  (gs : list (string * Z)) (line : string) (extra : nat)
  (Hgs : Forall (wrong_guess 42) gs)
  (Hlen : (length gs < 100)%nat)
  (Hlf : has_char LF line = false)
  (Htarget : forall m, stoi line m = Returns 42 m) :
  main (S (length gs) + extra) (boot (lines (map fst gs) ++ line)) =
    Exits 0
      (mk_world (mk_istream EmptyString true false)
                (lines (greeting :: map (fun g => feedback 42 (snd g)) gs
                        ++ [correct_message]))
                EmptyString).
Proof.
  assert (Hne : line <> EmptyString).
  { intros ->. specialize (Htarget (boot EmptyString)). discriminate Htarget. }
  replace (S (length gs) + extra)%nat with (length gs + S extra)%nat by lia.
  rewrite (boot_after_wrong_guesses gs _ (S extra) Hgs) by lia.
  cbn [main_loop]. unfold bind.
  rewrite loop_body_under_limit by (cbn [judge query_count max_queries]; lia).
  unfold after_read. cbn [judge world cin cout cerr query_count max_queries].
  rewrite (getline_unterminated (mk_istream line false false)
             line eq_refl eq_refl Hne Hlf). cbn [fst snd].
  rewrite (guess_judged 42 line _ 42 (Htarget _)).
  cbn [Z.eqb Pos.eqb]. unfold emit_world. cbn [world cin cout cerr].
  change (greeting :: map (fun g => feedback 42 (snd g)) gs ++ [correct_message])
    with ((greeting :: map (fun g => feedback 42 (snd g)) gs)
          ++ [correct_message])%list.
  rewrite lines_app. reflexivity.
Qed.

Lemma main_accepts_unterminated_target_witness :
  Forall (wrong_guess 42) [("10", 10)] /\
  (length [("10", 10)] < 100)%nat /\
  has_char LF "42" = false /\
  (forall m, stoi "42" m = Returns 42 m) /\
  main (S (length [("10", 10)]) + 0)
       (boot (lines (map fst [("10", 10)]) ++ "42")) =
    Exits 0
      (mk_world (mk_istream EmptyString true false)
         (lines [greeting; bigger_message; correct_message])
         EmptyString).
Proof.
  assert (Hgs : Forall (wrong_guess 42) [("10", 10)]) by wrong_guesses.
  assert (Hlen : (length [("10", 10)] < 100)%nat) by (simpl; lia).
  assert (Ht : forall m, stoi "42" m = Returns 42 m) by (intros; reflexivity).
  split; [exact Hgs |]. split; [exact Hlen |]. split; [reflexivity |].
  split; [exact Ht |].
  exact (main_accepts_unterminated_target [("10", 10)] "42" 0
           Hgs Hlen eq_refl Ht).
Defined.

(** ** The counter from any state, and a limit changed on the way *)

Lemma reads_counter_from (k : nat) (m0 m : Machine) :
  CInt.INT_MIN <= query_count (judge m0) ->
  max_queries (judge m0) <= CInt.INT_MAX ->
  reads k m0 m ->
  query_count (judge m) = query_count (judge m0) + Z.of_nat k /\
  max_queries (judge m) = max_queries (judge m0) /\
  ((0 < k)%nat -> query_count (judge m) <= max_queries (judge m)).
Proof.
  intros Hlo Hhi Hreads.
  induction Hreads as [m | k m0 m message m' _ IH Hout | k m0 m line m' _ IH Hin].
  - split; [lia |]. split; [reflexivity | lia].
  - specialize (IH Hlo Hhi).
    rewrite output_spec in Hout. injection Hout as <-. exact IH.
  - destruct (IH Hlo Hhi) as [Hc [Hm _]].
    destruct (Z.lt_ge_cases (query_count (judge m)) (max_queries (judge m)))
      as [Hlt | Hge].
    + rewrite (input_under_limit m Hlt) in Hin. injection Hin as _ <-.
      cbn [judge query_count max_queries].
      rewrite (incr_below (query_count (judge m)) (max_queries (judge m)))
        by lia.
      split; [lia |]. split; [exact Hm | lia].
    + rewrite (input_over_limit m Hge) in Hin. discriminate.
Qed.

(** X9: in any session whose counters are [int]s, [query_count] grows by
    exactly one per accepted call of [input()], without ever wrapping
    around, and [max_queries] stays as it was: after [k] accepted calls the
    counters are still [int]s, [query_count] is the starting value plus
    [k], and from the first accepted call on it is at most
    [max_queries]. *)
Theorem session_counter_never_overflows (k : nat) (m0 m : Machine)
  (Hwf : wf_judge (judge m0))
  (Hreads : reads k m0 m) :
  wf_judge (judge m) /\
  query_count (judge m) = query_count (judge m0) + Z.of_nat k /\
  max_queries (judge m) = max_queries (judge m0) /\
  ((0 < k)%nat -> query_count (judge m) <= max_queries (judge m)).
Proof.
  destruct Hwf as [[Hlo Hchi] [Hmlo Hhi]].
  destruct (reads_counter_from k m0 m Hlo Hhi Hreads) as [Hc [Hm Hle]].
  split; [| split; [exact Hc | split; [exact Hm | exact Hle]]].
  unfold wf_judge, CInt.in_range. rewrite Hm.
  destruct k as [|k].
  - rewrite Hc. change (Z.of_nat 0) with 0. rewrite Z.add_0_r. tauto.
  - assert (Hk : (0 < S k)%nat) by lia. specialize (Hle Hk). lia.
Qed.

Lemma session_counter_never_overflows_witness :
  wf_judge (judge scenario_B_start) /\
  reads 2 scenario_B_start scenario_B_after_two /\
  wf_judge (judge scenario_B_after_two) /\
  query_count (judge scenario_B_after_two)
    = query_count (judge scenario_B_start) + Z.of_nat 2.
Proof.
  assert (Hwf : wf_judge (judge scenario_B_start)).
  { unfold wf_judge, CInt.in_range, CInt.INT_MIN, CInt.INT_MAX. simpl. lia. }
  pose proof (session_counter_never_overflows 2 scenario_B_start
                scenario_B_after_two Hwf scenario_B_reads) as H.
  split; [exact Hwf |]. split; [exact scenario_B_reads |].
  split; [exact (proj1 H) | exact (proj1 (proj2 H))].
Defined.

(** X10: [set_max_queries] does not reset [query_count]: the calls of
    [input()] accepted before it count against the new limit.  After
    [set_max_queries(max)] in a state with [c] queries used, at most
    [max - c] further calls are accepted, and the call made once
    [c + k >= max] ends the process with status 1 and the query-limit
    reason. *)
Theorem new_limit_counts_earlier_reads
  (max : Z) (k : nat) (m m1 m2 : Machine)
  (Hlo : CInt.INT_MIN <= query_count (judge m))
  (Hhi : max <= CInt.INT_MAX)
  (Hset : set_max_queries max m = Returns tt m1)
  (Hreads : reads k m1 m2) :
  query_count (judge m2) = query_count (judge m) + Z.of_nat k /\
  ((0 < k)%nat -> query_count (judge m) + Z.of_nat k <= max) /\
  (max <= query_count (judge m) + Z.of_nat k ->
   input m2 =
     Exits 1 (mk_world (cin (world m2)) (cout (world m2))
                (cerr (world m2) ++ "Wrong Answer: " ++ limit_message ++ endl))).
Proof.
  unfold set_max_queries in Hset. injection Hset as <-.
  destruct (reads_counter_from k
              (mk_machine (mk_judge (query_count (judge m)) max) (world m))
              m2 Hlo Hhi Hreads) as [Hc [Hm Hle]].
  cbn [judge query_count max_queries] in Hc, Hm.
  split; [exact Hc |]. split.
  - intros Hk. specialize (Hle Hk). lia.
  - intros Hge. rewrite input_over_limit; [reflexivity | lia].
Qed.

(** Three queries used under the default limit, "40" still to come. *)
Lemma new_limit_counts_earlier_reads_witness :
  CInt.INT_MIN <= query_count (judge (mk_machine (mk_judge 3 100)
                                        (world (boot (lines ["30"; "40"]))))) /\
  4 <= CInt.INT_MAX /\
  set_max_queries 4 (mk_machine (mk_judge 3 100)
                                (world (boot (lines ["30"; "40"]))))
    = Returns tt (mk_machine (mk_judge 3 4)
                             (world (boot (lines ["30"; "40"])))) /\
  reads 1 (mk_machine (mk_judge 3 4) (world (boot (lines ["30"; "40"]))))
          (mk_machine (mk_judge 4 4) (world (boot (lines ["40"])))) /\
  4 <= 3 + Z.of_nat 1 /\
  input (mk_machine (mk_judge 4 4) (world (boot (lines ["40"])))) =
    Exits 1 (mk_world (mk_istream (lines ["40"]) false false) EmptyString
               ("Wrong Answer: " ++ limit_message ++ endl)).
Proof.
  assert (Hlo : CInt.INT_MIN
                <= query_count (judge (mk_machine (mk_judge 3 100)
                                         (world (boot (lines ["30"; "40"]))))))
    by (unfold CInt.INT_MIN; simpl; lia).
  assert (Hhi : 4 <= CInt.INT_MAX) by (unfold CInt.INT_MAX; lia).
  assert (Hreads :
            reads 1 (mk_machine (mk_judge 3 4) (world (boot (lines ["30"; "40"]))))
                    (mk_machine (mk_judge 4 4) (world (boot (lines ["40"]))))).
  { apply (reads_receive 0 _
             (mk_machine (mk_judge 3 4) (world (boot (lines ["30"; "40"]))))
             "30");
      [apply reads_start | reflexivity]. }
  assert (Hge : 4 <= 3 + Z.of_nat 1) by (simpl; lia).
  split; [exact Hlo |]. split; [exact Hhi |]. split; [reflexivity |].
  split; [exact Hreads |]. split; [exact Hge |].
  exact (proj2 (proj2 (new_limit_counts_earlier_reads 4 1
                         (mk_machine (mk_judge 3 100)
                                     (world (boot (lines ["30"; "40"]))))
                         (mk_machine (mk_judge 3 4)
                                     (world (boot (lines ["30"; "40"]))))
                         (mk_machine (mk_judge 4 4)
                                     (world (boot (lines ["40"]))))
                         Hlo Hhi eq_refl Hreads)) Hge).
Defined.

(** ** Lines the loop rejects as invalid input *)

Lemma no_digit_start (s : string) :
  no_digit s = true -> starts_with_digit s = false.
Proof.
  destruct s as [|c s]; [reflexivity |].
  unfold no_digit. cbn [all_chars starts_with_digit]. intros H.
  apply andb_prop in H. destruct H as [Hc _].
  now apply negb_true_iff in Hc.
Qed.

Lemma no_digit_skip_space (s : string) :
  no_digit s = true -> no_digit (skip_space s) = true.
Proof.
  unfold no_digit.
  induction s as [|c s IH]; [reflexivity |].
  cbn [skip_space]. intros H. destruct (isspace c); [| exact H].
  cbn [all_chars] in H. apply andb_prop in H. now apply IH.
Qed.

Lemma no_digit_take_sign (s : string) :
  no_digit s = true -> no_digit (snd (take_sign s)) = true.
Proof.
  unfold no_digit. destruct s as [|c s]; [reflexivity |].
  cbn [take_sign]. intros H.
  assert (Hs : all_chars (fun c => negb (isdigit c)) s = true).
  { cbn [all_chars] in H. apply andb_prop in H. tauto. }
  destruct (Ascii.eqb c "-"); [exact Hs |].
  destruct (Ascii.eqb c "+"); [exact Hs | exact H].
Qed.

(** X11: a line that holds no decimal digit at all (an empty or blank
    line, a word, a lone sign) is never taken as a guess: the turn of the
    loop ends the process with status 1 and the invalid-input reason,
    whatever the target. *)
Theorem line_without_digit_is_rejected
  (n : Z) (m m1 : Machine) (line : string)
  (Hread : input m = Returns line m1)
  (Hline : no_digit line = true) :
  loop_body n m =
    Exits 1 (mk_world (cin (world m1)) (cout (world m1))
               (cerr (world m1) ++ "Wrong Answer: " ++ invalid_message ++ endl)).
Proof.
  unfold loop_body. unfold bind at 1. rewrite Hread.
  rewrite (guess_rejected n line m1 (invalid_argument "stoi"));
    [reflexivity |].
  apply stoi_no_digit, no_digit_start, no_digit_take_sign, no_digit_skip_space.
  exact Hline.
Qed.

Lemma line_without_digit_is_rejected_witness :
  input (boot (lines [" -x"])) = Returns " -x" after_single_line /\
  no_digit " -x" = true /\
  loop_body 42 (boot (lines [" -x"])) =
    Exits 1 (mk_world (mk_istream EmptyString false false) EmptyString
               ("Wrong Answer: " ++ invalid_message ++ endl)).
Proof.
  split; [reflexivity |]. split; [reflexivity |].
  exact (line_without_digit_is_rejected 42 (boot (lines [" -x"]))
           after_single_line " -x" eq_refl eq_refl).
Defined.

(** X12: a line that begins with a decimal number outside the range of
    [int] (after optional white space and sign) is not compared with the
    target: [stoi] throws [out_of_range], which the loop's [catch (...)]
    turns into status 1 with the invalid-input reason. *)
Theorem number_outside_int_is_rejected
  (ws ds rest : string) (sg : sign) (n : Z) (m m1 : Machine)
  (Hws : all_chars isspace ws = true)
  (Hds : all_chars isdigit ds = true)
  (Hne : ds <> EmptyString)
  (Hrest : starts_with_digit rest = false)
  (Hrange : ~ CInt.in_range (signed sg (decimal ds)))
  (Hread : input m = Returns (ws ++ sign_text sg ++ ds ++ rest) m1) :
  stoi (ws ++ sign_text sg ++ ds ++ rest) m1 = Throws (out_of_range "stoi") m1 /\
  loop_body n m =
    Exits 1 (mk_world (cin (world m1)) (cout (world m1))
               (cerr (world m1) ++ "Wrong Answer: " ++ invalid_message ++ endl)).
Proof.
  pose proof (stoi_integer_prefix_out_of_range ws ds rest sg
                Hws Hds Hne Hrest m1 Hrange) as Hstoi.
  split; [exact Hstoi |].
  unfold loop_body. unfold bind at 1. rewrite Hread.
  rewrite (guess_rejected n _ m1 _ Hstoi). reflexivity.
Qed.

Lemma number_outside_int_is_rejected_witness :
  all_chars isspace EmptyString = true /\
  all_chars isdigit "2147483648" = true /\
  "2147483648" <> EmptyString /\
  starts_with_digit EmptyString = false /\
  ~ CInt.in_range (signed NoSign (decimal "2147483648")) /\
  input (boot (lines ["2147483648"])) = Returns "2147483648" after_single_line /\
  loop_body 42 (boot (lines ["2147483648"])) =
    Exits 1 (mk_world (mk_istream EmptyString false false) EmptyString
               ("Wrong Answer: " ++ invalid_message ++ endl)).
Proof.
  assert (Hne : "2147483648" <> EmptyString) by discriminate.
  assert (Hrange : ~ CInt.in_range (signed NoSign (decimal "2147483648"))).
  { unfold CInt.in_range, CInt.INT_MIN, CInt.INT_MAX. simpl. lia. }
  split; [reflexivity |]. split; [reflexivity |]. split; [exact Hne |].
  split; [reflexivity |]. split; [exact Hrange |]. split; [reflexivity |].
  exact (proj2 (number_outside_int_is_rejected EmptyString "2147483648"
                  EmptyString NoSign 42 (boot (lines ["2147483648"]))
                  after_single_line eq_refl eq_refl Hne eq_refl Hrange eq_refl)).
Defined.
